(** * Security State & Verification Engine of secure-comm-simulator

    A shallow embedding of the nonce ledger ([lib/attacks/replay.ts]), the key
    and session store ([lib/keyManagement.ts]), the verification engine
    ([lib/verificationService.ts]), the relay audit log
    ([lib/communicationService.ts]) and the two request handlers that drive
    them, followed by the properties of the specification that concern them.

    Conventions of the embedding.
    - The process-wide singletons ([usedNonces], [keyStore.keys],
      [sessionManager.sessions], [communicationService.messageBuffer] and
      [messageLog]) are the fields of one [World] record that every operation
      threads through.
    - [Date.now()] is an external reading: the k-th call made by the process
      returns [clock k]; the [World] counts the readings taken so far.  Time
      stamps are integers (milliseconds), not IEEE doubles.
    - Key generation is an external capability that may reject: the k-th
      request returns [generatePair k] (resp. [generateSecret k]), [None]
      standing for a rejected promise.
    - A JavaScript exception does not undo the writes made before it; a
      computation therefore returns its (possibly failed) result together
      with the world it leaves behind.
    - [Map] is modelled by [gmap]: the listings ([getActiveKeyIds]) carry the
      same elements as the source's, in the map's order instead of insertion
      order.
    - An [async] function runs to completion: no other request is interleaved
      at its [await] points.
    - Counters and scores are mathematical integers; the message of a rejected
      key generation is rendered as ["CryptoUnavailable"]. *)

From Stdlib Require Import ZArith QArith.
From stdpp Require Import gmap strings list fin_maps pretty.

Local Open Scope string_scope.
Local Open Scope Z_scope.

(** ** Data model *)

Module NonceRecord.
Record t := mk { nonce : string; usedAt : Z; count : Z }.
End NonceRecord.

Inductive AttackType := tamper | replay | mitm | bruteForce.

Module AttackDetection.
Record t := mk {
  detected : bool;
  attackType : option AttackType;
  confidence : Q;
  evidence : list string;
  timestamp : Z
}.
End AttackDetection.

Inductive OverallStatus := SAFE | SUSPICIOUS | COMPROMISED.

Module Checks.
Record t := mk {
  integrityCheck : bool;
  signatureCheck : bool;
  replayCheck : bool;
  freshnessCheck : bool;
  timeSyncCheck : bool
}.
End Checks.

Module VerificationReport.
Record t := mk {
  messageId : string;
  timestamp : Z;
  checks : Checks.t;
  detectedAttacks : list AttackDetection.t;
  overallStatus : OverallStatus;
  riskScore : Z
}.
End VerificationReport.

Inductive KeyType := RSA_ENCRYPT | RSA_SIGN | AES | ECDH.

Module StoredKeyPair.
Record t (CryptoKey : Type) := mk {
  id : string;
  type : KeyType;
  publicKey : option CryptoKey;
  privateKey : option CryptoKey;
  symmetricKey : option CryptoKey;
  createdAt : Z;
  expiresAt : Z
}.
Arguments mk {CryptoKey}.
Arguments id {CryptoKey}.
Arguments type {CryptoKey}.
Arguments publicKey {CryptoKey}.
Arguments privateKey {CryptoKey}.
Arguments symmetricKey {CryptoKey}.
Arguments createdAt {CryptoKey}.
Arguments expiresAt {CryptoKey}.
End StoredKeyPair.

Module SessionContext.
Record t := mk {
  sessionId : string;
  rsaEncryptionKeyId : option string;
  rsaSignatureKeyId : option string;
  aesSessionKeyId : option string;
  ecdhKeyId : option string;
  createdAt : Z;
  expiresAt : Z
}.
End SessionContext.

Inductive EncryptionMethod := caesar | aes | rsa.

Module EncryptedMessage.
Record t := mk {
  encryptedData : string;
  iv : string;
  nonce : string;
  timestamp : Z;
  encryptionMethod : EncryptionMethod;
  mac : option string;
  signature : option string
}.
End EncryptedMessage.

Module SessionMessage.
Record t := mk {
  id : string;
  payload : EncryptedMessage.t;
  receivedAt : Z;
  processedAt : option Z;
  wasDecrypted : option bool
}.
End SessionMessage.

Module MessageLog.
Record t := mk {
  id : string;
  timestamp : Z;
  sender : string;
  receiver : string;
  encrypted : bool;
  attacksDetected : list string;
  encryptedDataHash : string;
  decrypted : bool
}.
End MessageLog.

(** ** The process state *)

Record World (CryptoKey : Type) := mkWorld {
  ticks : nat;
  keygens : nat;
  randoms : nat;
  usedNonces : gmap string NonceRecord.t;
  keys : gmap string (StoredKeyPair.t CryptoKey);
  sessions : gmap string SessionContext.t;
  messageBuffer : gmap string SessionMessage.t;
  messageLog : list MessageLog.t
}.
Arguments mkWorld {CryptoKey}.
Arguments ticks {CryptoKey}.
Arguments keygens {CryptoKey}.
Arguments randoms {CryptoKey}.
Arguments usedNonces {CryptoKey}.
Arguments keys {CryptoKey}.
Arguments sessions {CryptoKey}.
Arguments messageBuffer {CryptoKey}.
Arguments messageLog {CryptoKey}.

(** The state of a freshly started process. *)
Definition initialWorld {CryptoKey : Type} : World CryptoKey :=
  mkWorld 0%nat 0%nat 0%nat ∅ ∅ ∅ ∅ [].

(** ** Computations: a result or an exception, and the world left behind *)

Inductive Completion (A : Type) :=
| Returns (a : A)
| Throws (reason : string).
Arguments Returns {A}.
Arguments Throws {A}.

Definition Js (S A : Type) : Type := S -> Completion A * S.

Definition ret {S A : Type} (a : A) : Js S A := fun w => (Returns a, w).

Definition throw {S A : Type} (reason : string) : Js S A :=
  fun w => (Throws reason, w).

Definition bind {S A B : Type} (m : Js S A) (k : A -> Js S B) : Js S B :=
  fun w =>
    match m w with
    | (Returns a, w') => k a w'
    | (Throws e, w') => (Throws e, w')
    end.

Definition gets {S A : Type} (f : S -> A) : Js S A := fun w => (Returns (f w), w).

Definition modify {S : Type} (f : S -> S) : Js S unit :=
  fun w => (Returns tt, f w).

Declare Scope js_scope.
Delimit Scope js_scope with js.
Notation "'let!' x ':=' m 'in' k" := (bind m (fun x => k))
  (at level 10, x name, m at level 100, k at level 200) : js_scope.
Notation "'run!' m 'in' k" := (bind m (fun _ => k))
  (at level 10, m at level 100, k at level 200) : js_scope.

(** [Array.prototype.push]: append at the end. *)
Definition push {A : Type} (l : list A) (x : A) : list A := (l ++ [x])%list.

(** [when c m] is [if (c) { m }]. *)
Definition when {S : Type} (c : bool) (m : Js S unit) : Js S unit :=
  if c then m else ret tt.

(** The world a computation leaves and the value it returns. *)
Definition worldAfter {S A : Type} (m : Js S A) (w : S) : S := snd (m w).

Definition resultOf {S A : Type} (m : Js S A) (w : S) : Completion A := fst (m w).

(** Results of the individual checks of the verification service. *)

Module HashCheck.
Record t := mk { valid : bool; actualHash : string }.
End HashCheck.

Module NonceFreshness.
Record t := mk { isFresh : bool; isReplayed : bool }.
End NonceFreshness.

Module TimestampFreshness.
Record t := mk { isFresh : bool; age : Z; maxAge : Z }.
End TimestampFreshness.

Module ClockSync.
Record t := mk { synchronized : bool; skew : Z; maxSkew : Z }.
End ClockSync.

Module NonceStats.
Record t := mk { totalNonces : nat; replayedNonces : nat; freshNonces : nat }.
End NonceStats.

(** Request and response bodies of the two handlers
    ([lib/types/crypto.ts] and the object literals of the routes). *)

Module VerifyBody.
Record t := mk {
  nonce : string;
  integrity : bool;
  authentication : bool;
  replayEnabled : bool;
  signatureValid : option bool;
  freshnessValid : option bool
}.
End VerifyBody.

Module VerificationResult.
Record t := mk {
  integrity : bool;
  authentication : bool;
  replaySafe : bool;
  signatureValid : option bool;
  freshnessValid : option bool;
  detectedAttacks : list string;
  message : string
}.
End VerificationResult.

Module AttackOptions.
Record t := mk { tamper : bool; replay : bool; mitm : bool; bruteForce : option bool }.
End AttackOptions.

Module RelayRequest.
Record t := mk { payload : EncryptedMessage.t; attackOptions : AttackOptions.t }.
End RelayRequest.

Module RelayResponse.
Record t := mk {
  success : bool;
  data : option EncryptedMessage.t;
  error : option string
}.
End RelayResponse.

Module Response.
Record t (A : Type) := mk { body : A; status : Z }.
Arguments mk {A}.
Arguments body {A}.
Arguments status {A}.
End Response.

(** A call made on the nonce ledger, and the arguments of a [logMessage]
    call. *)
Inductive LedgerCall :=
| CallIsReplay (token : string)
| CallMarkNonceUsed (token : string)
| CallGetNonceStats.

Module LogCall.
Record t := mk {
  messageId : string;
  sender : string;
  receiver : string;
  encryptedDataHash : string;
  attacksDetected : option (list string)
}.
End LogCall.

Section Engine.

Context {CryptoKey : Type}.

(** The outside world: the wall clock, the digest primitive, the key
    generators, the random tampering of a base64 ciphertext and the hex
    rendering of its first bytes. *)
Variable clock : nat -> Z.
Variable sha256 : string -> string.
Variable generatePair : nat -> option (CryptoKey * CryptoKey).
Variable generateSecret : nat -> option CryptoKey.
Variable tamperBase64 : nat -> string -> string.
Variable hexPrefix16 : string -> string.

Abbreviation W := (World CryptoKey).

Local Open Scope js_scope.

(** *** Field updates of the world *)

Definition set_ticks (f : nat -> nat) (w : W) : W :=
  mkWorld (f (ticks w)) (keygens w) (randoms w) (usedNonces w) (keys w)
          (sessions w) (messageBuffer w) (messageLog w).

Definition set_keygens (f : nat -> nat) (w : W) : W :=
  mkWorld (ticks w) (f (keygens w)) (randoms w) (usedNonces w) (keys w)
          (sessions w) (messageBuffer w) (messageLog w).

Definition set_randoms (f : nat -> nat) (w : W) : W :=
  mkWorld (ticks w) (keygens w) (f (randoms w)) (usedNonces w) (keys w)
          (sessions w) (messageBuffer w) (messageLog w).

Definition set_usedNonces
  (f : gmap string NonceRecord.t -> gmap string NonceRecord.t) (w : W) : W :=
  mkWorld (ticks w) (keygens w) (randoms w) (f (usedNonces w)) (keys w)
          (sessions w) (messageBuffer w) (messageLog w).

Definition set_keys
  (f : gmap string (StoredKeyPair.t CryptoKey) ->
       gmap string (StoredKeyPair.t CryptoKey)) (w : W) : W :=
  mkWorld (ticks w) (keygens w) (randoms w) (usedNonces w) (f (keys w))
          (sessions w) (messageBuffer w) (messageLog w).

Definition set_sessions
  (f : gmap string SessionContext.t -> gmap string SessionContext.t) (w : W) : W :=
  mkWorld (ticks w) (keygens w) (randoms w) (usedNonces w) (keys w)
          (f (sessions w)) (messageBuffer w) (messageLog w).

Definition set_messageBuffer
  (f : gmap string SessionMessage.t -> gmap string SessionMessage.t) (w : W) : W :=
  mkWorld (ticks w) (keygens w) (randoms w) (usedNonces w) (keys w)
          (sessions w) (f (messageBuffer w)) (messageLog w).

Definition set_messageLog
  (f : list MessageLog.t -> list MessageLog.t) (w : W) : W :=
  mkWorld (ticks w) (keygens w) (randoms w) (usedNonces w) (keys w)
          (sessions w) (messageBuffer w) (f (messageLog w)).

(** [Date.now()]: the next reading of the wall clock. *)
Definition Date_now : Js W Z :=
  fun w => (Returns (clock (ticks w)), set_ticks S w).

(** ** Nonce ledger ([lib/attacks/replay.ts]) *)

Definition isReplay (nonce : string) : Js W bool :=
  let! record := gets (fun w => usedNonces w !! nonce) in
  ret match record with
      | Some r => NonceRecord.count r >? 0
      | None => false
      end.

Definition markNonceUsed (nonce : string) : Js W unit :=
  let! record := gets (fun w => usedNonces w !! nonce) in
  match record with
  | Some r =>
      let! now := Date_now in
      modify (set_usedNonces
                (insert nonce
                   (NonceRecord.mk (NonceRecord.nonce r) now
                      (NonceRecord.count r + 1))))
  | None =>
      let! now := Date_now in
      modify (set_usedNonces (insert nonce (NonceRecord.mk nonce now 1)))
  end.

(** ** Verification engine ([lib/verificationService.ts]) *)

Definition MAX_CLOCK_SKEW_MS : Z := 5000.
Definition MESSAGE_MAX_AGE_MS : Z := 3600000.

Definition verifyHash (message expectedHash : string) : HashCheck.t :=
  let actualHash := sha256 message in
  HashCheck.mk (String.eqb actualHash expectedHash) actualHash.

Definition checkNonceFreshness (nonce : string) : Js W NonceFreshness.t :=
  let! isReplayed := isReplay nonce in
  ret (NonceFreshness.mk (negb isReplayed) isReplayed).

Definition checkTimestampFreshness (messageTimestamp : Z) (maxAge : option Z)
  : Js W TimestampFreshness.t :=
  let maxAge := default MESSAGE_MAX_AGE_MS maxAge in
  let! now := Date_now in
  let age := now - messageTimestamp in
  ret (TimestampFreshness.mk ((age <? maxAge) && (age >=? 0)) age maxAge).

Definition checkClockSync (senderTimestamp : Z) (receiverTimestamp : option Z)
  : Js W ClockSync.t :=
  let! receiverTimestamp :=
    match receiverTimestamp with
    | Some t => ret t
    | None => Date_now
    end in
  let skew := Z.abs (receiverTimestamp - senderTimestamp) in
  ret (ClockSync.mk (skew <=? MAX_CLOCK_SKEW_MS) skew MAX_CLOCK_SKEW_MS).

Definition detectTampering (originalHash receivedHash : string)
  : Js W AttackDetection.t :=
  let detected := negb (String.eqb originalHash receivedHash) in
  let! now := Date_now in
  ret (AttackDetection.mk detected (Some tamper)
         (if detected then 1%Q else 0%Q)
         (if detected
          then ["Hash mismatch: " +:+ originalHash +:+ " != " +:+ receivedHash;
                "Ciphertext integrity violated"]
          else [])
         now).

Definition detectReplay (nonce : string) : Js W AttackDetection.t :=
  let! isReplayedNonce := isReplay nonce in
  let! now := Date_now in
  ret (AttackDetection.mk isReplayedNonce (Some replay)
         (if isReplayedNonce then 1%Q else 0%Q)
         (if isReplayedNonce
          then ["Nonce reuse detected: " +:+ nonce; "Message has been replayed"]
          else [])
         now).

Definition detectMITM (signatureValid : bool) (expectedSender : string)
  : Js W AttackDetection.t :=
  let detected := negb signatureValid in
  let! now := Date_now in
  ret (AttackDetection.mk detected (Some mitm)
         (if detected then (9 # 10)%Q else 0%Q)
         (if detected
          then ["Signature verification failed for sender: " +:+ expectedSender;
                "Message may have been intercepted or modified by third party"]
          else [])
         now).

(** The local variables [detectedAttacks] and [riskScore] of
    [generateVerificationReport], updated by each of its [if] blocks. *)
Definition Tally : Type := list AttackDetection.t * Z.

Definition generateVerificationReport
  (messageId message messageHash nonce : string) (messageTimestamp : Z)
  (signatureValid : option bool) : Js W VerificationReport.t :=
  let! now := Date_now in
  let integrityCheck := verifyHash message messageHash in
  let! replayCheck := checkNonceFreshness nonce in
  let! freshnessCheck := checkTimestampFreshness messageTimestamp None in
  let! timeSyncCheck := checkClockSync messageTimestamp None in
  let tally : Tally := ([], 0) in
  (* Check for tampering *)
  let! tally :=
    if negb (HashCheck.valid integrityCheck)
    then let! d := detectTampering (HashCheck.actualHash integrityCheck) messageHash in
         ret (push tally.1 d, tally.2 + 35)
    else ret tally in
  (* Check for replay *)
  let! tally :=
    if NonceFreshness.isReplayed replayCheck
    then let! d := detectReplay nonce in
         ret (push tally.1 d, tally.2 + 30)
    else ret tally in
  (* Check for freshness *)
  let tally : Tally :=
    if negb (TimestampFreshness.isFresh freshnessCheck)
    then (tally.1, tally.2 + 15) else tally in
  (* Check for clock skew *)
  let tally : Tally :=
    if negb (ClockSync.synchronized timeSyncCheck)
    then (tally.1, tally.2 + 10) else tally in
  (* Check for MITM *)
  let! tally :=
    match signatureValid with
    | Some false =>
        let! d := detectMITM false "unknown" in
        ret (push tally.1 d, tally.2 + 20)
    | _ => ret tally
    end in
  (* Cap risk score *)
  let riskScore := Z.min tally.2 100 in
  let overallStatus :=
    if riskScore >? 70 then COMPROMISED
    else if riskScore >? 30 then SUSPICIOUS
    else SAFE in
  ret (VerificationReport.mk messageId now
         (Checks.mk (HashCheck.valid integrityCheck)
            (default false signatureValid)
            (NonceFreshness.isFresh replayCheck)
            (TimestampFreshness.isFresh freshnessCheck)
            (ClockSync.synchronized timeSyncCheck))
         tally.1 overallStatus riskScore).

(** ** Key store ([lib/keyManagement.ts], class [KeyStore]) *)

Definition DEFAULT_KEY_LIFESPAN_MS : Z := 3600000.

(** [crypto.subtle.generateKey] for a key pair and for a secret key: the
    request is counted, and a rejected promise surfaces as an exception. *)
Definition subtle_generateKeyPair : Js W (CryptoKey * CryptoKey) :=
  fun w =>
    match generatePair (keygens w) with
    | Some kp => (Returns kp, set_keygens S w)
    | None => (Throws "CryptoUnavailable", set_keygens S w)
    end.

Definition subtle_generateSecretKey : Js W CryptoKey :=
  fun w =>
    match generateSecret (keygens w) with
    | Some k => (Returns k, set_keygens S w)
    | None => (Throws "CryptoUnavailable", set_keygens S w)
    end.

Definition generateRSAEncryptionKeys : Js W (CryptoKey * CryptoKey) :=
  subtle_generateKeyPair.

Definition generateRSASignatureKeys : Js W (CryptoKey * CryptoKey) :=
  subtle_generateKeyPair.

Definition generateDHKeyPair : Js W (CryptoKey * CryptoKey) :=
  subtle_generateKeyPair.

Definition generateAESKey : Js W CryptoKey := subtle_generateSecretKey.

(** [s || fallback] for an optional string: [undefined] and the empty string
    are falsy, and the fallback is evaluated only then. *)
Definition truthy (s : option string) : option string :=
  match s with
  | Some v => if String.eqb v "" then None else Some v
  | None => None
  end.

Definition orElse (s : option string) (fallback : Js W string) : Js W string :=
  match truthy s with
  | Some v => ret v
  | None => fallback
  end.

(** A template literal [`prefix${Date.now()}`]. *)
Definition stamped (prefix : string) : Js W string :=
  let! now := Date_now in ret (prefix +:+ pretty now).

Definition generateAndStoreRSAEncryptionKeys (keyId : option string)
  : Js W (string * CryptoKey) :=
  let! id := orElse keyId (stamped "rsa-enc-") in
  let! kp := generateRSAEncryptionKeys in
  let! created := Date_now in
  let! now := Date_now in
  run! modify (set_keys (insert id
         (StoredKeyPair.mk id RSA_ENCRYPT (Some kp.1) (Some kp.2) None
            created (now + DEFAULT_KEY_LIFESPAN_MS)))) in
  ret (id, kp.1).

Definition generateAndStoreRSASignatureKeys (keyId : option string)
  : Js W (string * CryptoKey) :=
  let! id := orElse keyId (stamped "rsa-sign-") in
  let! kp := generateRSASignatureKeys in
  let! created := Date_now in
  let! now := Date_now in
  run! modify (set_keys (insert id
         (StoredKeyPair.mk id RSA_SIGN (Some kp.1) (Some kp.2) None
            created (now + DEFAULT_KEY_LIFESPAN_MS)))) in
  ret (id, kp.1).

Definition generateAndStoreECDHKeyPair (keyId : option string)
  : Js W (string * CryptoKey) :=
  let! id := orElse keyId (stamped "ecdh-") in
  let! kp := generateDHKeyPair in
  let! created := Date_now in
  let! now := Date_now in
  run! modify (set_keys (insert id
         (StoredKeyPair.mk id ECDH (Some kp.1) (Some kp.2) None
            created (now + DEFAULT_KEY_LIFESPAN_MS)))) in
  ret (id, kp.1).

Definition generateAndStoreAESSessionKey (keyId : option string)
  : Js W (string * CryptoKey) :=
  let! id := orElse keyId (stamped "aes-session-") in
  let! key := generateAESKey in
  let! created := Date_now in
  let! now := Date_now in
  run! modify (set_keys (insert id
         (StoredKeyPair.mk id AES None None (Some key)
            created (now + DEFAULT_KEY_LIFESPAN_MS)))) in
  ret (id, key).

Definition getKeyPair (keyId : string)
  : Js W (option (StoredKeyPair.t CryptoKey)) :=
  let! stored := gets (fun w => keys w !! keyId) in
  match stored with
  | Some s =>
      let! now := Date_now in
      if StoredKeyPair.expiresAt s <? now
      then run! modify (set_keys (delete keyId)) in ret None
      else ret stored
  | None => ret stored
  end.

Definition revokeKey (keyId : string) : Js W bool :=
  let! stored := gets (fun w => keys w !! keyId) in
  run! modify (set_keys (delete keyId)) in
  ret (bool_decide (is_Some stored)).

Definition getActiveKeyIds : Js W (list string) :=
  let! now := Date_now in
  let! entries := gets (fun w => map_to_list (keys w)) in
  ret (List.map fst
         (List.filter (fun e => StoredKeyPair.expiresAt e.2 >? now) entries)).

(** ** Session manager ([lib/keyManagement.ts], class [SessionManager]) *)

Definition SESSION_LIFESPAN_MS : Z := 1800000.

Definition createSession (sessionId : option string) : Js W SessionContext.t :=
  let! id := orElse sessionId (stamped "session-") in
  let! created := Date_now in
  let! now := Date_now in
  let expires := now + SESSION_LIFESPAN_MS in
  (* Generate keys for this session *)
  let! rsaEnc := generateAndStoreRSAEncryptionKeys (Some (id +:+ "-rsa-enc")) in
  let! rsaSig := generateAndStoreRSASignatureKeys (Some (id +:+ "-rsa-sig")) in
  let! aes := generateAndStoreAESSessionKey (Some (id +:+ "-aes")) in
  let! ecdh := generateAndStoreECDHKeyPair (Some (id +:+ "-ecdh")) in
  let session :=
    SessionContext.mk id (Some rsaEnc.1) (Some rsaSig.1) (Some aes.1)
      (Some ecdh.1) created expires in
  run! modify (set_sessions (insert id session)) in
  ret session.

(** [if (keyId) keyStore.revokeKey(keyId)] *)
Definition revokeIfSet (keyId : option string) : Js W unit :=
  match truthy keyId with
  | Some k => run! revokeKey k in ret tt
  | None => ret tt
  end.

Definition terminateSession (sessionId : string) : Js W bool :=
  let! session := gets (fun w => sessions w !! sessionId) in
  match session with
  | None => ret false
  | Some session =>
      (* Revoke all keys associated with this session *)
      run! revokeIfSet (SessionContext.rsaEncryptionKeyId session) in
      run! revokeIfSet (SessionContext.rsaSignatureKeyId session) in
      run! revokeIfSet (SessionContext.aesSessionKeyId session) in
      run! revokeIfSet (SessionContext.ecdhKeyId session) in
      let! existed := gets (fun w => bool_decide (is_Some (sessions w !! sessionId))) in
      run! modify (set_sessions (delete sessionId)) in
      ret existed
  end.

Definition getSession (sessionId : string) : Js W (option SessionContext.t) :=
  let! session := gets (fun w => sessions w !! sessionId) in
  match session with
  | Some s =>
      let! now := Date_now in
      if SessionContext.expiresAt s <? now
      then run! terminateSession sessionId in ret None
      else ret session
  | None => ret session
  end.

(** ** Relay and audit log ([lib/communicationService.ts]) *)

Definition MAX_LOG_SIZE : nat := 1000.

Definition storeEncryptedMessage (sessionId : string)
  (payload : EncryptedMessage.t) (messageId : option string)
  : Js W (string * bool) :=
  let! messageId :=
    match messageId with
    | Some m => ret m
    | None => stamped "msg-"
    end in
  let! now := Date_now in
  run! modify (set_messageBuffer
                 (insert messageId (SessionMessage.mk messageId payload now None None))) in
  let! stored := gets (fun w => bool_decide (is_Some (messageBuffer w !! messageId))) in
  ret (messageId, stored).

Definition logMessage (messageId sender receiver encryptedDataHash : string)
  (attacksDetected : option (list string)) : Js W unit :=
  let attacksDetected := default [] attacksDetected in
  let! now := Date_now in
  let log :=
    MessageLog.mk messageId now sender receiver true attacksDetected
      encryptedDataHash false in
  run! modify (set_messageLog (fun l => push l log)) in
  (* Maintain log size limit *)
  let! len := gets (fun w => length (messageLog w)) in
  when (MAX_LOG_SIZE <? len)%nat (modify (set_messageLog (drop 1))).

Definition logAttackAttempt (messageId attackType : string) : Js W unit :=
  logMessage messageId "unknown" "unknown" "N/A" (Some [attackType]).

(** ** Request handlers *)

(** [try { body } catch (error) { handler(error.message) }] *)
Definition tryCatch {A : Type} (body : Js W A) (handler : string -> Js W A)
  : Js W A :=
  fun w =>
    match body w with
    | (Returns a, w') => (Returns a, w')
    | (Throws e, w') => handler e w'
    end.

(** [await req.json()]: the parsed body, or a rejection when the body is not
    well formed. *)
Definition req_json {A : Type} (body : option A) : Js W A :=
  match body with
  | Some b => ret b
  | None => throw "Unexpected end of JSON input"
  end.

(** [detectedAttacks.join(", ")] *)
Definition join (sep : string) (l : list string) : string := String.concat sep l.

(** [POST] of the verify route. *)
Definition verify_POST (req : option VerifyBody.t)
  : Js W (Response.t VerificationResult.t) :=
  tryCatch
    (let! b := req_json req in
     let nonce := VerifyBody.nonce b in
     let integrity := VerifyBody.integrity b in
     let replayEnabled := VerifyBody.replayEnabled b in
     let signatureValid := VerifyBody.signatureValid b in
     let freshnessValid := VerifyBody.freshnessValid b in
     (* Check for replay attacks *)
     let! isReplayAttack :=
       if replayEnabled then isReplay nonce else ret false in
     let replaySafe := negb isReplayAttack in
     (* Mark nonce as used after verification *)
     run! when (negb isReplayAttack) (markNonceUsed nonce) in
     (* Determine detected attacks *)
     let detectedAttacks : list string := [] in
     let detectedAttacks :=
       if negb integrity then push detectedAttacks "tamper" else detectedAttacks in
     let detectedAttacks :=
       if isReplayAttack then push detectedAttacks "replay" else detectedAttacks in
     let detectedAttacks :=
       match signatureValid with
       | Some false =>
           if replayEnabled then push detectedAttacks "mitm" else detectedAttacks
       | _ => detectedAttacks
       end in
     let detectedAttacks :=
       match freshnessValid with
       | Some false => push detectedAttacks "stale"
       | _ => detectedAttacks
       end in
     ret (Response.mk
            (VerificationResult.mk integrity (VerifyBody.authentication b)
               replaySafe signatureValid freshnessValid detectedAttacks
               (if (0 <? length detectedAttacks)%nat
                then "Attacks detected: " +:+ join ", " detectedAttacks
                else "Message verified successfully"))
            200))
    (fun error =>
       ret (Response.mk
              (VerificationResult.mk false false false None None ["error"]
                 ("Verification failed: " +:+
                  (if String.eqb error "" then "Unknown error" else error)))
              400)).

(** The part of the relay handler that follows the replay check. *)
Definition relay_forward (messageId : string) (payload : EncryptedMessage.t)
  (attackOptions : AttackOptions.t) : Js W (Response.t RelayResponse.t) :=
  let attacks : list string := [] in
  let modifiedPayload := payload in
  (* Simulate tampering attack *)
  let! tampered :=
    if AttackOptions.tamper attackOptions
       && negb (String.eqb (EncryptedMessage.encryptedData payload) "")
    then
      let! seed := gets randoms in
      run! modify (set_randoms S) in
      let modifiedPayload :=
        EncryptedMessage.mk
          (tamperBase64 seed (EncryptedMessage.encryptedData payload))
          (EncryptedMessage.iv payload) (EncryptedMessage.nonce payload)
          (EncryptedMessage.timestamp payload)
          (EncryptedMessage.encryptionMethod payload)
          (EncryptedMessage.mac payload) (EncryptedMessage.signature payload) in
      run! logAttackAttempt messageId "tamper" in
      ret (push attacks "tamper", modifiedPayload)
    else ret (attacks, modifiedPayload) in
  let attacks := tampered.1 in
  let modifiedPayload := tampered.2 in
  (* Simulate MITM attack flag *)
  let! attacks :=
    if AttackOptions.mitm attackOptions
    then run! logAttackAttempt messageId "mitm" in ret (push attacks "mitm")
    else ret attacks in
  (* Mark nonce as used (AFTER checks, to record it as processed) *)
  run! markNonceUsed (EncryptedMessage.nonce payload) in
  (* Store message temporarily *)
  run! storeEncryptedMessage "default-session" modifiedPayload (Some messageId) in
  (* Log the message *)
  let encryptedDataHash :=
    hexPrefix16 (EncryptedMessage.encryptedData modifiedPayload) in
  run! logMessage messageId "sender@example.com" "receiver@example.com"
         encryptedDataHash (Some attacks) in
  ret (Response.mk (RelayResponse.mk true (Some modifiedPayload) None) 200).

(** [POST] of the relay route. *)
Definition relay_POST (req : option RelayRequest.t)
  : Js W (Response.t RelayResponse.t) :=
  tryCatch
    (let! body := req_json req in
     let payload := RelayRequest.payload body in
     let attackOptions := RelayRequest.attackOptions body in
     let! messageId := stamped "relay-" in
     (* Check for replay attack *)
     let! replayed :=
       if AttackOptions.replay attackOptions
       then isReplay (EncryptedMessage.nonce payload)
       else ret false in
     if replayed
     then
       run! logAttackAttempt messageId "replay" in
       ret (Response.mk
              (RelayResponse.mk false None
                 (Some "Replay attack detected: nonce reuse"))
              409)
     else relay_forward messageId payload attackOptions)
    (fun err =>
       ret (Response.mk
              (RelayResponse.mk false None
                 (Some ("Invalid relay request" +:+
                        (if String.eqb err "" then "" else ": " +:+ err))))
              400)).

(** ** Sequences of calls *)

Definition getNonceStats : Js W NonceStats.t :=
  let! records := gets (fun w => (map_to_list (usedNonces w)).*2) in
  let replayed := List.filter (fun r => NonceRecord.count r >? 1) records in
  let fresh := List.filter (fun r => negb (NonceRecord.count r >? 1)) records in
  ret (NonceStats.mk (length records) (length replayed) (length fresh)).

Definition ledgerCall (c : LedgerCall) : Js W unit :=
  match c with
  | CallIsReplay t => run! isReplay t in ret tt
  | CallMarkNonceUsed t => markNonceUsed t
  | CallGetNonceStats => run! getNonceStats in ret tt
  end.

Definition logCall (c : LogCall.t) : Js W unit :=
  logMessage (LogCall.messageId c) (LogCall.sender c) (LogCall.receiver c)
    (LogCall.encryptedDataHash c) (LogCall.attacksDetected c).

(** Run the calls one after the other. *)
Fixpoint inOrder {A : Type} (call : A -> Js W unit) (cs : list A) : Js W unit :=
  match cs with
  | [] => ret tt
  | c :: cs => run! call c in inOrder call cs
  end.

End Engine.

(** ** Vocabulary of the specification *)

Section Vocabulary.

Context {CryptoKey : Type}.

Abbreviation W := (World CryptoKey).

(** The value a computation returns, when it returns one. *)
Definition returned {A : Type} (c : Completion A) : option A :=
  match c with
  | Returns a => Some a
  | Throws _ => None
  end.

(** Freshness and skew bounds of a claimed time stamp at a clock reading. *)
Definition withinFreshness (now messageTimestamp : Z) : Prop :=
  0 <= now - messageTimestamp < MESSAGE_MAX_AGE_MS.

Definition withinSkew (now messageTimestamp : Z) : Prop :=
  Z.abs (now - messageTimestamp) <= MAX_CLOCK_SKEW_MS.

(** The readings of the clock that [generateVerificationReport] hands to the
    freshness check and to the clock-sync check when it starts in [w]: the
    second and the third reading of the call. *)
Definition freshnessReading (clock : nat -> Z) (w : W) : Z :=
  clock (S (ticks w)).

Definition clockSyncReading (clock : nat -> Z) (w : W) : Z :=
  clock (S (S (ticks w))).

(** What the ledger answers to [isReplay] in [w]. *)
Definition ledgerReportsReplay (nonce : string) (w : W) : bool :=
  match returned (resultOf (isReplay nonce) w) with
  | Some b => b
  | None => false
  end.

(** How often a token has been consumed according to the ledger. *)
Definition useCount (nonce : string) (w : W) : Z :=
  match usedNonces w !! nonce with
  | Some r => NonceRecord.count r
  | None => 0
  end.

(** Every record of the ledger has been used at least once. *)
Definition ledgerCounted (w : W) : Prop :=
  forall t r, usedNonces w !! t = Some r -> 1 <= NonceRecord.count r.

End Vocabulary.

(** The set of failing checks of a verification, one flag per row of the
    table of weights. *)
Module FailingChecks.
Record t := mk {
  integrity : bool;
  replay : bool;
  freshness : bool;
  clockSync : bool;
  signature : bool
}.

Definition subset (a b : t) : Prop :=
  (integrity a = true -> integrity b = true) /\
  (replay a = true -> replay b = true) /\
  (freshness a = true -> freshness b = true) /\
  (clockSync a = true -> clockSync b = true) /\
  (signature a = true -> signature b = true).

Definition weight (a : t) : Z :=
  (if integrity a then 35 else 0) + (if replay a then 30 else 0) +
  (if freshness a then 15 else 0) + (if clockSync a then 10 else 0) +
  (if signature a then 20 else 0).
End FailingChecks.

(** The failing checks of a call of [generateVerificationReport], read off
    the failure conditions of the table: digest mismatch, replay reported by
    the ledger, age outside of [0, 1h), skew above 5s, signature signalled
    invalid. *)
Definition failingChecks {CryptoKey : Type} (clock : nat -> Z)
  (sha256 : string -> string) (message messageHash nonce : string)
  (messageTimestamp : Z) (signatureValid : option bool)
  (w : World CryptoKey) : FailingChecks.t :=
  FailingChecks.mk
    (negb (String.eqb (sha256 message) messageHash))
    (ledgerReportsReplay nonce w)
    (negb ((0 <=? freshnessReading clock w - messageTimestamp)
           && (freshnessReading clock w - messageTimestamp <? 3600000)))
    (5000 <? Z.abs (clockSyncReading clock w - messageTimestamp))
    (match signatureValid with Some false => true | _ => false end).

(** The identifier [createSession] settles on, and the identifiers it gives
    to the four sub-keys, in the order of generation. *)
Definition sessionIdFor {CryptoKey : Type} (clock : nat -> Z)
  (sessionId : option string) (w : World CryptoKey) : string :=
  match truthy sessionId with
  | Some s => s
  | None => "session-" +:+ pretty (clock (ticks w))
  end.

Definition subKeyIds (id : string) : list string :=
  [id +:+ "-rsa-enc"; id +:+ "-rsa-sig"; id +:+ "-aes"; id +:+ "-ecdh"].

(** Whether the [i]-th sub-key generation of a session succeeds, when [g]
    generation requests were made before: the third sub-key is the AES secret
    key, the others are key pairs. *)
Definition subKeyGenerated {CryptoKey : Type}
  (generatePair : nat -> option (CryptoKey * CryptoKey))
  (generateSecret : nat -> option CryptoKey) (g i : nat) : bool :=
  match i with
  | 2%nat => bool_decide (is_Some (generateSecret (i + g)%nat))
  | _ => bool_decide (is_Some (generatePair (i + g)%nat))
  end.

(** The key identifiers a session record refers to. *)
Definition referencedKeyIds (s : SessionContext.t) : list string :=
  omap id
    [SessionContext.rsaEncryptionKeyId s; SessionContext.rsaSignatureKeyId s;
     SessionContext.aesSessionKeyId s; SessionContext.ecdhKeyId s].

(** No key is ever stored under the empty identifier. *)
Definition keyIdsNonEmpty {CryptoKey : Type} (w : World CryptoKey) : Prop :=
  keys w !! "" = None.

(** [preserves P m]: the computation [m] leaves a world satisfying [P]
    whenever it starts in one, whether it returns or throws; [yielding P m Q]
    adds that a returned value satisfies [Q]. *)
Definition yielding {S A : Type} (P : S -> Prop) (m : Js S A) (Q : A -> Prop)
  : Prop :=
  forall w, P w ->
    P (worldAfter m w)
    /\ forall a, resultOf m w = Returns a -> Q a.

Definition preserves {S A : Type} (P : S -> Prop) (m : Js S A) : Prop :=
  yielding P m (fun _ => True).

(** The entry a [logMessage] call writes at clock reading [now], and the
    entries written by a run of calls whose first reading is the [t]-th. *)
Definition logEntry (c : LogCall.t) (now : Z) : MessageLog.t :=
  MessageLog.mk (LogCall.messageId c) now (LogCall.sender c)
    (LogCall.receiver c) true (default [] (LogCall.attacksDetected c))
    (LogCall.encryptedDataHash c) false.

Fixpoint logEntries (clock : nat -> Z) (t : nat) (cs : list LogCall.t)
  : list MessageLog.t :=
  match cs with
  | [] => []
  | c :: cs => logEntry c (clock t) :: logEntries clock (S t) cs
  end.

(** The three-level status of a risk score, and the kinds of attack reported
    for a set of failing checks, in the order of the table. *)
Definition classify (riskScore : Z) : OverallStatus :=
  if 70 <? riskScore then COMPROMISED
  else if 30 <? riskScore then SUSPICIOUS
  else SAFE.

Definition attackKinds (f : FailingChecks.t) : list AttackType :=
  ((if FailingChecks.integrity f then [tamper] else []) ++
   (if FailingChecks.replay f then [replay] else []) ++
   (if FailingChecks.signature f then [mitm] else []))%list.

(** ** A sample environment, for closed instances *)

Definition sampleClock (k : nat) : Z := 1700000000000 + Z.of_nat k.

Definition sampleSha256 (s : string) : string := "sha256(" +:+ s +:+ ")".

Definition samplePair (k : nat) : option (nat * nat) := Some (2 * k, 2 * k + 1)%nat.

Definition sampleSecret (k : nat) : option nat := Some k.

(** A generator that rejects its [j]-th request. *)
Definition rejectingAt {A : Type} (j : nat) (g : nat -> option A) (k : nat)
  : option A :=
  if (k =? j)%nat then None else g k.

Definition sampleTamper (seed : nat) (data : string) : string :=
  data +:+ "~" +:+ pretty seed.

Definition sampleHexPrefix (data : string) : string := "hex:" +:+ data.

(** A clock that stands at 1000 for its first two readings and at 3601000,
    one key lifespan later, from the third on. *)
Definition boundaryClock (k : nat) : Z :=
  match k with
  | 0%nat | 1%nat => 1000
  | _ => 3601000
  end.

(** A sample world whose ledger has consumed the nonce ["n-1"] once. *)
Definition usedOnceWorld : World nat :=
  worldAfter (markNonceUsed sampleClock "n-1") initialWorld.

(** A presentation of the nonce ["n-1"] to each handler, with replay
    checking enabled. *)
Definition sampleVerifyBody : VerifyBody.t :=
  VerifyBody.mk "n-1" true true true None None.

Definition sampleRelayRequest : RelayRequest.t :=
  RelayRequest.mk
    (EncryptedMessage.mk "3q2+7w==" "AAAAAAAAAAAAAAAA" "n-1" 1700000000000 aes
       None None)
    (AttackOptions.mk false true false None).

(** A sample world holding the session ["s1"] and its four sub-keys. *)
Definition sampleSessionWorld : World nat :=
  worldAfter (createSession sampleClock samplePair sampleSecret (Some "s1"))
    initialWorld.

(** A sample world holding the AES key ["k1"], created at 1000 and expiring
    at 3601000, in which the next clock reading is 3601000. *)
Definition keyAtExpiryWorld : World nat :=
  worldAfter
    (generateAndStoreAESSessionKey boundaryClock sampleSecret (Some "k1"))
    initialWorld.

Definition sampleLedgerCalls : list LedgerCall :=
  [CallIsReplay "a"; CallMarkNonceUsed "a"; CallIsReplay "a";
   CallMarkNonceUsed "b"; CallMarkNonceUsed "a"; CallGetNonceStats].

(** 1001 [logMessage] calls, numbered from 0. *)
Definition sampleLogCalls : list LogCall.t :=
  (fun i => LogCall.mk ("msg-" +:+ pretty i) "alice" "bob" "00ff" None)
    <$> seq 0 1001.
(** ** Verification engine: properties *)

Section VerificationProperties.

Context {CryptoKey : Type}.
Variable clock : nat -> Z.
Variable sha256 : string -> string.

(** The report is always produced, and each of its parts is determined by the
    set of failing checks. *)
Lemma generateVerificationReport_returns
  (messageId message messageHash nonce : string) (messageTimestamp : Z)
  (signatureValid : option bool) (w : World CryptoKey) :
  let f := failingChecks clock sha256 message messageHash nonce
             messageTimestamp signatureValid w in
  exists r,
    resultOf (generateVerificationReport clock sha256 messageId message
                messageHash nonce messageTimestamp signatureValid) w
    = Returns r
    /\ VerificationReport.riskScore r = Z.min (FailingChecks.weight f) 100
    /\ VerificationReport.overallStatus r
       = classify (VerificationReport.riskScore r)
    /\ AttackDetection.attackType <$> VerificationReport.detectedAttacks r
       = Some <$> attackKinds f
    /\ Forall (fun d => AttackDetection.detected d = true)
         (VerificationReport.detectedAttacks r)
    /\ VerificationReport.checks r
       = Checks.mk (negb (FailingChecks.integrity f))
           (default false signatureValid)
           (negb (FailingChecks.replay f))
           (negb (FailingChecks.freshness f))
           (negb (FailingChecks.clockSync f)).
Proof.
  unfold resultOf, generateVerificationReport, failingChecks,
    ledgerReportsReplay, resultOf, FailingChecks.weight, attackKinds, classify,
    freshnessReading, clockSyncReading.
  destruct w as [t kg rn ledger ks ss mb ml]; cbn -[lookup].
  rewrite (Z.ltb_antisym _ 5000), Z.geb_leb.
  unfold MAX_CLOCK_SKEW_MS, MESSAGE_MAX_AGE_MS.
  destruct (sha256 message =? messageHash)%string eqn:Hh;
    (destruct (ledger !! nonce) as [r0|] eqn:Hl;
       [destruct (NonceRecord.count r0 >? 0) eqn:Hc|]);
    destruct (clock (S t) - messageTimestamp <? 3600000);
    destruct (0 <=? clock (S t) - messageTimestamp);
    destruct (Z.abs (clock (S (S t)) - messageTimestamp) <=? 5000);
    destruct signatureValid as [[|]|]; cbn -[lookup];
    rewrite ?Hl; cbn; rewrite ?Hc, ?Hh;
    (eexists; repeat split; cbn; try reflexivity; repeat constructor).
Qed.

(** The time-dependent flags are off when the time stamp is within bounds. *)
Lemma failingChecks_in_time
  (message messageHash nonce : string) (messageTimestamp : Z)
  (signatureValid : option bool) (w : World CryptoKey) :
  withinFreshness (freshnessReading clock w) messageTimestamp ->
  withinSkew (clockSyncReading clock w) messageTimestamp ->
  let f := failingChecks clock sha256 message messageHash nonce
             messageTimestamp signatureValid w in
  FailingChecks.freshness f = false /\ FailingChecks.clockSync f = false.
Proof.
  unfold withinFreshness, withinSkew, MESSAGE_MAX_AGE_MS, MAX_CLOCK_SKEW_MS.
  intros Hf Hs. cbn. split.
  - apply negb_false_iff, andb_true_iff. split; [apply Z.leb_le|apply Z.ltb_lt]; lia.
  - apply Z.ltb_ge. lia.
Qed.

Lemma weight_bounds (f : FailingChecks.t) : 0 <= FailingChecks.weight f <= 110.
Proof.
  destruct f as [[] [] [] [] []]; unfold FailingChecks.weight; cbn; lia.
Qed.

Lemma weight_monotone (f g : FailingChecks.t) :
  FailingChecks.subset f g -> FailingChecks.weight f <= FailingChecks.weight g.
Proof.
  unfold FailingChecks.subset.
  destruct f as [[] [] [] [] []], g as [[] [] [] [] []];
    unfold FailingChecks.weight; cbn; intros (H1 & H2 & H3 & H4 & H5);
    try lia;
    try (specialize (H1 eq_refl)); try (specialize (H2 eq_refl));
    try (specialize (H3 eq_refl)); try (specialize (H4 eq_refl));
    try (specialize (H5 eq_refl)); discriminate.
Qed.

(** C1. A digest mismatch, a nonce the ledger reports as replayed and a
    signature signalled invalid, with the time stamp within the freshness and
    skew bounds, give a report with risk score 85, status COMPROMISED and
    exactly the three detections tamper, replay, mitm in that order. *)
Theorem report_tamper_replay_mitm
  (messageId message messageHash nonce : string) (messageTimestamp : Z)
  (w : World CryptoKey) :
  sha256 message <> messageHash ->
  resultOf (isReplay nonce) w = Returns true ->
  withinFreshness (freshnessReading clock w) messageTimestamp ->
  withinSkew (clockSyncReading clock w) messageTimestamp ->
  exists r,
    resultOf (generateVerificationReport clock sha256 messageId message
                messageHash nonce messageTimestamp (Some false)) w
    = Returns r
    /\ VerificationReport.riskScore r = 85
    /\ VerificationReport.overallStatus r = COMPROMISED
    /\ AttackDetection.attackType <$> VerificationReport.detectedAttacks r
       = [Some tamper; Some replay; Some mitm]
    /\ Forall (fun d => AttackDetection.detected d = true)
         (VerificationReport.detectedAttacks r).
Proof.
  intros Hdigest Hreplay Hfresh Hskew.
  destruct (generateVerificationReport_returns messageId message messageHash
              nonce messageTimestamp (Some false) w)
    as (r & Hr & Hscore & Hstatus & Hkinds & Hdet & _).
  destruct (failingChecks_in_time message messageHash nonce messageTimestamp
              (Some false) w Hfresh Hskew) as [Hf Hs].
  assert (Hi : FailingChecks.integrity
                 (failingChecks clock sha256 message messageHash nonce
                    messageTimestamp (Some false) w) = true).
  { cbn. apply negb_true_iff, String.eqb_neq, Hdigest. }
  assert (Hp : FailingChecks.replay
                 (failingChecks clock sha256 message messageHash nonce
                    messageTimestamp (Some false) w) = true).
  { change (ledgerReportsReplay nonce w = true).
    unfold ledgerReportsReplay. now rewrite Hreplay. }
  exists r. split; [exact Hr|].
  unfold FailingChecks.weight, attackKinds in *.
  rewrite Hi, Hp, Hf, Hs in *. cbn in Hscore, Hkinds.
  rewrite Hstatus, Hscore. repeat split; [exact Hkinds|exact Hdet].
Qed.

(** C2. An unmodified digest, a nonce never marked used, a time stamp of age
    within [0, 1h) and skew at most 5s, and no signature-failure signal, give
    a report with risk score 0, status SAFE and no detected attack. *)
Theorem report_clean_message
  (messageId message messageHash nonce : string) (messageTimestamp : Z)
  (signatureValid : option bool) (w : World CryptoKey) :
  sha256 message = messageHash ->
  useCount nonce w = 0 ->
  withinFreshness (freshnessReading clock w) messageTimestamp ->
  withinSkew (clockSyncReading clock w) messageTimestamp ->
  signatureValid <> Some false ->
  exists r,
    resultOf (generateVerificationReport clock sha256 messageId message
                messageHash nonce messageTimestamp signatureValid) w
    = Returns r
    /\ VerificationReport.riskScore r = 0
    /\ VerificationReport.overallStatus r = SAFE
    /\ VerificationReport.detectedAttacks r = [].
Proof.
  intros Hdigest Hunused Hfresh Hskew Hsig.
  destruct (generateVerificationReport_returns messageId message messageHash
              nonce messageTimestamp signatureValid w)
    as (r & Hr & Hscore & Hstatus & Hkinds & _).
  destruct (failingChecks_in_time message messageHash nonce messageTimestamp
              signatureValid w Hfresh Hskew) as [Hf Hs].
  assert (Hi : FailingChecks.integrity
                 (failingChecks clock sha256 message messageHash nonce
                    messageTimestamp signatureValid w) = false).
  { cbn. apply negb_false_iff, String.eqb_eq, Hdigest. }
  assert (Hp : FailingChecks.replay
                 (failingChecks clock sha256 message messageHash nonce
                    messageTimestamp signatureValid w) = false).
  { change (ledgerReportsReplay nonce w = false).
    unfold ledgerReportsReplay, resultOf, isReplay, useCount in *.
    cbn -[lookup].
    destruct (usedNonces w !! nonce) as [rec|]; [|reflexivity].
    rewrite Hunused. reflexivity. }
  assert (Hg : FailingChecks.signature
                 (failingChecks clock sha256 message messageHash nonce
                    messageTimestamp signatureValid w) = false).
  { cbn. destruct signatureValid as [[|]|]; congruence. }
  exists r. split; [exact Hr|].
  unfold FailingChecks.weight, attackKinds in *.
  rewrite Hi, Hp, Hf, Hs, Hg in *. cbn in Hscore, Hkinds.
  rewrite Hstatus, Hscore. repeat split.
  destruct (VerificationReport.detectedAttacks r); [reflexivity|discriminate].
Qed.

(** C8. The risk score of every report lies in [0, 100], and it is monotone
    in the set of failing checks: a call whose failing checks include those of
    another call has a risk score at least as large. *)
Theorem riskScore_bounded_monotone
  (messageId message messageHash nonce : string) (messageTimestamp : Z)
  (signatureValid : option bool) (w : World CryptoKey) :
  exists r,
    resultOf (generateVerificationReport clock sha256 messageId message
                messageHash nonce messageTimestamp signatureValid) w
    = Returns r
    /\ 0 <= VerificationReport.riskScore r <= 100
    /\ forall (messageId' message' messageHash' nonce' : string)
         (messageTimestamp' : Z) (signatureValid' : option bool)
         (w' : World CryptoKey) (r' : VerificationReport.t),
         resultOf (generateVerificationReport clock sha256 messageId' message'
                     messageHash' nonce' messageTimestamp' signatureValid') w'
         = Returns r' ->
         FailingChecks.subset
           (failingChecks clock sha256 message messageHash nonce
              messageTimestamp signatureValid w)
           (failingChecks clock sha256 message' messageHash' nonce'
              messageTimestamp' signatureValid' w') ->
         VerificationReport.riskScore r <= VerificationReport.riskScore r'.
Proof.
  destruct (generateVerificationReport_returns messageId message messageHash
              nonce messageTimestamp signatureValid w)
    as (r & Hr & Hscore & _).
  exists r. split; [exact Hr|]. split.
  - pose proof (weight_bounds
                  (failingChecks clock sha256 message messageHash nonce
                     messageTimestamp signatureValid w)). lia.
  - intros messageId' message' messageHash' nonce' messageTimestamp'
      signatureValid' w' r' Hr' Hsub.
    destruct (generateVerificationReport_returns messageId' message'
                messageHash' nonce' messageTimestamp' signatureValid' w')
      as (r2 & Hr2 & Hscore2 & _).
    rewrite Hr' in Hr2. injection Hr2 as <-.
    apply weight_monotone in Hsub. lia.
Qed.

(** C10. With the signature signal absent, [checks.signatureCheck] is false,
    as it is for a failed signature; no weight is added and no mitm detection
    is appended (score and detections are those of a valid signature), and
    the [checks] of the report equal those of the report for a failed
    signature. *)
Theorem absent_signature_reads_as_failed
  (messageId message messageHash nonce : string) (messageTimestamp : Z)
  (w : World CryptoKey) :
  exists rAbsent rValid rFailed,
    resultOf (generateVerificationReport clock sha256 messageId message
                messageHash nonce messageTimestamp None) w
    = Returns rAbsent
    /\ resultOf (generateVerificationReport clock sha256 messageId message
                   messageHash nonce messageTimestamp (Some true)) w
       = Returns rValid
    /\ resultOf (generateVerificationReport clock sha256 messageId message
                   messageHash nonce messageTimestamp (Some false)) w
       = Returns rFailed
    /\ Checks.signatureCheck (VerificationReport.checks rAbsent) = false
    /\ Checks.signatureCheck (VerificationReport.checks rFailed) = false
    /\ Checks.signatureCheck (VerificationReport.checks rValid) = true
    /\ VerificationReport.riskScore rAbsent = VerificationReport.riskScore rValid
    /\ VerificationReport.detectedAttacks rAbsent
       = VerificationReport.detectedAttacks rValid
    /\ Forall (fun d => AttackDetection.attackType d <> Some mitm)
         (VerificationReport.detectedAttacks rAbsent)
    /\ Exists (fun d => AttackDetection.attackType d = Some mitm)
         (VerificationReport.detectedAttacks rFailed)
    /\ VerificationReport.checks rAbsent = VerificationReport.checks rFailed.
Proof.
  unfold resultOf, generateVerificationReport, ledgerReportsReplay, resultOf.
  destruct w as [t kg rn ledger ks ss mb ml]; cbn -[lookup].
  destruct (sha256 message =? messageHash)%string eqn:Hh;
    (destruct (ledger !! nonce) as [r0|] eqn:Hl;
       [destruct (NonceRecord.count r0 >? 0) eqn:Hc|]);
    destruct ((clock (S t) - messageTimestamp <? MESSAGE_MAX_AGE_MS)
              && (clock (S t) - messageTimestamp >=? 0));
    destruct (Z.abs (clock (S (S t)) - messageTimestamp) <=? MAX_CLOCK_SKEW_MS);
    cbn -[lookup]; rewrite ?Hl; cbn; rewrite ?Hc, ?Hh;
    (do 3 eexists; repeat split; cbn; try reflexivity);
    repeat first [ apply Forall_cons; split; [discriminate|]
                 | apply Forall_nil_2
                 | apply Exists_cons_hd; reflexivity
                 | apply Exists_cons_tl ].
Qed.

End VerificationProperties.
(** ** Nonce ledger: properties *)

Section LedgerProperties.

Context {CryptoKey : Type}.
Variable clock : nat -> Z.

Lemma isReplay_reads (nonce : string) (w : World CryptoKey) :
  isReplay nonce w = (Returns (ledgerReportsReplay nonce w), w).
Proof. reflexivity. Qed.

Lemma ledgerReportsReplay_counted (nonce : string) (w : World CryptoKey) :
  ledgerCounted w ->
  ledgerReportsReplay nonce w = true <-> is_Some (usedNonces w !! nonce).
Proof.
  intros Hinv. unfold ledgerReportsReplay, resultOf, isReplay. cbn -[lookup].
  destruct (usedNonces w !! nonce) as [r|] eqn:Hl.
  - specialize (Hinv _ _ Hl). split; [eauto|intros _]. apply Z.gtb_lt. lia.
  - split; [discriminate|]. intros [r Hr]. discriminate.
Qed.

(** The ledger after [markNonceUsed]: the token's record is present with its
    count raised by one, the other records are untouched. *)
Lemma markNonceUsed_ledger (nonce : string) (w : World CryptoKey) :
  exists r,
    markNonceUsed clock nonce w
    = (Returns tt, set_usedNonces (insert nonce r) (set_ticks S w))
    /\ NonceRecord.count r = useCount nonce w + 1.
Proof.
  unfold markNonceUsed, useCount. destruct w as [t kg rn ledger ks ss mb ml].
  cbn -[lookup insert].
  destruct (ledger !! nonce) as [r0|]; cbn -[lookup insert];
    eexists; split; reflexivity.
Qed.

Lemma useCount_markNonceUsed (nonce t : string) (w : World CryptoKey) :
  useCount t (worldAfter (markNonceUsed clock nonce) w)
  = useCount t w + (if bool_decide (t = nonce) then 1 else 0).
Proof.
  destruct (markNonceUsed_ledger nonce w) as (r & Hm & Hr).
  unfold worldAfter, useCount at 1. rewrite Hm. cbn -[lookup insert].
  case_bool_decide as Ht.
  - subst t. rewrite lookup_insert_eq. exact Hr.
  - rewrite lookup_insert_ne by congruence. unfold useCount. lia.
Qed.

Lemma ledgerCall_step (c : LedgerCall) (w : World CryptoKey) :
  ledgerCounted w ->
  exists w',
    ledgerCall clock c w = (Returns tt, w')
    /\ ledgerCounted w'
    /\ forall t, is_Some (usedNonces w' !! t)
                 <-> is_Some (usedNonces w !! t) \/ c = CallMarkNonceUsed t.
Proof.
  intros Hinv. destruct c as [t0|t0|].
  - exists w. repeat split; [exact Hinv|tauto|].
    intros [H|H]; [exact H|discriminate].
  - destruct (markNonceUsed_ledger t0 w) as (r & Hm & Hr).
    eexists. split; [exact Hm|]. split.
    + intros t r'. cbn -[lookup insert].
      destruct (decide (t0 = t)) as [->|Hne].
      * rewrite lookup_insert_eq. intros [= <-]. rewrite Hr.
        unfold useCount. destruct (usedNonces w !! t) as [r0|] eqn:Hl; [|lia].
        specialize (Hinv _ _ Hl). lia.
      * rewrite lookup_insert_ne by exact Hne. destruct w; apply Hinv.
    + intros t. cbn -[lookup insert].
      destruct (decide (t0 = t)) as [->|Hne].
      * rewrite lookup_insert_eq. split; [intros _; right; reflexivity|eauto].
      * rewrite lookup_insert_ne by exact Hne. destruct w; cbn -[lookup].
        split; [tauto|]. intros [H|[= H]]; [exact H|contradiction].
  - exists w. repeat split; [exact Hinv|tauto|].
    intros [H|H]; [exact H|discriminate].
Qed.

Lemma ledgerCalls_run (calls : list LedgerCall) (w : World CryptoKey) :
  ledgerCounted w ->
  exists w',
    inOrder (ledgerCall clock) calls w = (Returns tt, w')
    /\ ledgerCounted w'
    /\ forall t, is_Some (usedNonces w' !! t)
                 <-> is_Some (usedNonces w !! t) \/ CallMarkNonceUsed t ∈ calls.
Proof.
  revert w. induction calls as [|c calls IH]; intros w Hinv.
  - exists w. repeat split; [exact Hinv|tauto|].
    intros [H|H]; [exact H|]. now apply elem_of_nil in H.
  - destruct (ledgerCall_step c w Hinv) as (w1 & Hc & Hinv1 & Hdom1).
    destruct (IH w1 Hinv1) as (w2 & Hcs & Hinv2 & Hdom2).
    exists w2. split; [|split; [exact Hinv2|]].
    + cbn. unfold bind. rewrite Hc. exact Hcs.
    + intros t. rewrite Hdom2, Hdom1, elem_of_cons.
      split; [intros [[H|H]|H]|intros [H|[H|H]]]; auto.
Qed.

(** C5. From the empty ledger and after any sequence of ledger calls,
    [isReplay t] answers true exactly when [markNonceUsed t] is among the
    calls made: false as long as the token was never marked, true for every
    call after the first mark; and [isReplay] leaves every world as it found
    it. *)
Theorem isReplay_iff_marked (calls : list LedgerCall) (t : string)
  (w0 : World CryptoKey) :
  usedNonces w0 = ∅ ->
  exists w b,
    inOrder (ledgerCall clock) calls w0 = (Returns tt, w)
    /\ isReplay t w = (Returns b, w)
    /\ (b = true <-> CallMarkNonceUsed t ∈ calls)
    /\ forall (t' : string) (w' : World CryptoKey),
         worldAfter (isReplay t') w' = w'.
Proof.
  intros Hempty.
  assert (Hinv0 : ledgerCounted w0).
  { intros t' r. rewrite Hempty, lookup_empty. discriminate. }
  destruct (ledgerCalls_run calls w0 Hinv0) as (w & Hrun & Hinv & Hdom).
  exists w, (ledgerReportsReplay t w).
  split; [exact Hrun|]. split; [apply isReplay_reads|]. split.
  - rewrite (ledgerReportsReplay_counted t w Hinv), Hdom, Hempty, lookup_empty.
    split; [intros [[r Hr]|H]; [discriminate|exact H]|auto].
  - reflexivity.
Qed.

End LedgerProperties.

(** ** Request handlers: properties *)

Section HandlerProperties.

Context {CryptoKey : Type}.
Variable clock : nat -> Z.
Variable tamperBase64 : nat -> string -> string.
Variable hexPrefix16 : string -> string.

(** [logMessage] always returns: it reads the clock once, appends its entry
    and drops the oldest one when the log has grown past the limit. *)
Lemma logMessage_runs (messageId sender receiver hash : string)
  (attacks : option (list string)) (w : World CryptoKey) :
  logMessage clock messageId sender receiver hash attacks w
  = (Returns tt,
     set_messageLog
       (fun _ =>
          let l' :=
            push (messageLog w)
              (MessageLog.mk messageId (clock (ticks w)) sender receiver
                 true (default [] attacks) hash false) in
          if (MAX_LOG_SIZE <? length l')%nat then drop 1 l' else l')
       (set_ticks S w)).
Proof.
  unfold logMessage. destruct w as [t kg rn ledger ks ss mb ml].
  cbn -[Nat.ltb drop]. unfold when.
  match goal with
  | |- context [(?a <? ?b)%nat] => destruct (a <? b)%nat
  end; reflexivity.
Qed.

(** C6, as the handlers implement it. A presentation in which a replay is
    detected leaves the ledger as it was: the verify handler answers
    [replaySafe = false], the relay handler answers 409, and neither marks the
    nonce. Every other presentation (replay checking disabled, or a nonce the
    ledger does not report) marks the nonce exactly once, the check being made
    on the ledger as it was before the mark. *)
Theorem handlers_mark_unless_replay_detected :
  (forall (b : VerifyBody.t) (w : World CryptoKey),
     let detected :=
       VerifyBody.replayEnabled b && ledgerReportsReplay (VerifyBody.nonce b) w in
     exists resp,
       verify_POST clock (Some b) w
       = (Returns resp,
          if detected then w
          else worldAfter (markNonceUsed clock (VerifyBody.nonce b)) w)
       /\ Response.status resp = 200
       /\ VerificationResult.replaySafe (Response.body resp) = negb detected)
  /\
  (forall (r : RelayRequest.t) (w : World CryptoKey),
     let nonce := EncryptedMessage.nonce (RelayRequest.payload r) in
     let detected :=
       AttackOptions.replay (RelayRequest.attackOptions r)
       && ledgerReportsReplay nonce w in
     exists resp w',
       relay_POST clock tamperBase64 hexPrefix16 (Some r) w = (Returns resp, w')
       /\ Response.status resp = (if detected then 409 else 200)
       /\ useCount nonce w' = useCount nonce w + (if detected then 0 else 1)
       /\ forall t, t <> nonce -> usedNonces w' !! t = usedNonces w !! t).
Proof.
  split.
  - intros [nonce integrity authentication replayEnabled sig fresh] w detected.
    subst detected.
    unfold verify_POST, tryCatch, req_json, worldAfter, ledgerReportsReplay,
      resultOf, isReplay, markNonceUsed, when.
    destruct w as [t kg rn ledger ks ss mb ml]. cbn -[lookup insert].
    destruct replayEnabled;
      (destruct (ledger !! nonce) as [r0|] eqn:Hl;
         [destruct (NonceRecord.count r0 >? 0) eqn:Hc|]);
      repeat (progress (unfold bind, gets, ret, modify, Date_now;
                        cbn -[lookup insert]; rewrite ?Hl, ?Hc));
      eexists; repeat split.
  - intros [[data iv nonce ts method mac sig] [optTamper optReplay optMitm bf]] w.
    cbn [RelayRequest.payload RelayRequest.attackOptions EncryptedMessage.nonce
         AttackOptions.replay].
    unfold relay_POST, relay_forward, tryCatch, req_json, stamped,
      logAttackAttempt, storeEncryptedMessage, ledgerReportsReplay, resultOf,
      isReplay, markNonceUsed, useCount.
    destruct w as [t kg rn ledger ks ss mb ml].
    destruct optReplay;
      (destruct (ledger !! nonce) as [r0|] eqn:Hl;
         [destruct (NonceRecord.count r0 >? 0) eqn:Hc|]);
      destruct optTamper; destruct (data =? "")%string eqn:Hd; destruct optMitm;
      repeat (progress (unfold bind, gets, ret, modify, Date_now;
                        rewrite ?logMessage_runs;
                        cbn -[lookup insert logMessage Nat.ltb drop];
                        rewrite ?Hl, ?Hc, ?Hd));
      do 2 eexists; (split; [reflexivity|]); cbn -[lookup insert];
      rewrite ?Hl, ?lookup_insert_eq; (split; [reflexivity|]);
      (split; [cbn; lia|]);
      intros t' Ht'; rewrite ?lookup_insert_ne by congruence; reflexivity.
Qed.

End HandlerProperties.
(** ** Key store and sessions: properties *)

Section KeyStoreProperties.

Context {CryptoKey : Type}.
Variable clock : nat -> Z.
Variable generatePair : nat -> option (CryptoKey * CryptoKey).
Variable generateSecret : nat -> option CryptoKey.

Lemma append_suffix_nonempty (a b : string) : b <> "" -> a +:+ b <> "".
Proof. intros Hb He. destruct a; cbv in He; [congruence|discriminate]. Qed.

Lemma truthy_suffixed (a b : string) :
  b <> "" -> truthy (Some (a +:+ b)) = Some (a +:+ b).
Proof.
  intros Hb. unfold truthy.
  destruct (String.eqb_spec (a +:+ b) "") as [He|_]; [|reflexivity].
  now apply append_suffix_nonempty in He.
Qed.

Lemma truthy_nonempty (s : option string) (v : string) :
  truthy s = Some v -> v <> "".
Proof.
  unfold truthy. destruct s as [x|]; [|discriminate].
  destruct (String.eqb_spec x ""); [discriminate|]. congruence.
Qed.

Lemma sessionIdFor_nonempty (sessionId : option string) (w : World CryptoKey) :
  sessionIdFor clock sessionId w <> "".
Proof.
  unfold sessionIdFor. destruct (truthy sessionId) eqn:Ht.
  - eapply truthy_nonempty, Ht.
  - discriminate.
Qed.

(** *** Lookup with lazy expiry *)

Lemma getKeyPair_expired (keyId : string) (s : StoredKeyPair.t CryptoKey)
  (w : World CryptoKey) :
  keys w !! keyId = Some s ->
  StoredKeyPair.expiresAt s < clock (ticks w) ->
  getKeyPair clock keyId w
  = (Returns None, set_keys (delete keyId) (set_ticks S w)).
Proof.
  intros Hl Hexp. unfold getKeyPair, bind, gets, Date_now. cbn -[lookup delete].
  rewrite Hl. cbn -[lookup delete].
  destruct (Z.ltb_spec (StoredKeyPair.expiresAt s) (clock (ticks w))); [|lia].
  reflexivity.
Qed.

Lemma getKeyPair_live (keyId : string) (s : StoredKeyPair.t CryptoKey)
  (w : World CryptoKey) :
  keys w !! keyId = Some s ->
  clock (ticks w) <= StoredKeyPair.expiresAt s ->
  getKeyPair clock keyId w = (Returns (Some s), set_ticks S w).
Proof.
  intros Hl Hexp. unfold getKeyPair, bind, gets, Date_now. cbn -[lookup delete].
  rewrite Hl. cbn -[lookup delete].
  destruct (Z.ltb_spec (StoredKeyPair.expiresAt s) (clock (ticks w))); [lia|].
  reflexivity.
Qed.

Lemma getKeyPair_absent (keyId : string) (w : World CryptoKey) :
  keys w !! keyId = None ->
  getKeyPair clock keyId w = (Returns None, w).
Proof.
  intros Hl. unfold getKeyPair, bind, gets. cbn -[lookup delete].
  rewrite Hl. reflexivity.
Qed.

Lemma getActiveKeyIds_lists (keyId : string) (w : World CryptoKey) :
  exists ids,
    getActiveKeyIds clock w = (Returns ids, set_ticks S w)
    /\ (keyId ∈ ids <->
        exists s, keys w !! keyId = Some s
                  /\ clock (ticks w) < StoredKeyPair.expiresAt s).
Proof.
  unfold getActiveKeyIds, bind, gets, Date_now, ret.
  destruct w as [t kg rn ledger ks ss mb ml]. cbn -[lookup map_to_list].
  eexists. split; [reflexivity|].
  rewrite list_elem_of_In, in_map_iff. split.
  - intros ([k s] & Hk & Hin). cbn in Hk. subst k.
    apply filter_In in Hin as [Hin Hlt]. cbn in Hlt.
    apply list_elem_of_In, elem_of_map_to_list in Hin.
    exists s. split; [exact Hin|]. apply Z.gtb_lt in Hlt. lia.
  - intros (s & Hl & Hlt). exists (keyId, s). split; [reflexivity|].
    apply filter_In. split.
    + apply list_elem_of_In, elem_of_map_to_list, Hl.
    + cbn. apply Z.gtb_lt. lia.
Qed.

(** After an expired record was looked up, its identifier is not listed. *)
Lemma expired_key_evicted_and_unlisted (keyId : string)
  (s : StoredKeyPair.t CryptoKey) (w : World CryptoKey) :
  keys w !! keyId = Some s ->
  StoredKeyPair.expiresAt s < clock (ticks w) ->
  exists w' ids,
    getKeyPair clock keyId w = (Returns None, w')
    /\ keys w' !! keyId = None
    /\ resultOf (getActiveKeyIds clock) w' = Returns ids
    /\ keyId ∉ ids.
Proof.
  intros Hl Hexp.
  destruct (getActiveKeyIds_lists keyId
              (set_keys (delete keyId) (set_ticks S w))) as (ids & Hids & Hin).
  exists (set_keys (delete keyId) (set_ticks S w)), ids.
  split; [apply (getKeyPair_expired _ _ _ Hl Hexp)|].
  assert (Hgone : keys (set_keys (delete keyId) (set_ticks S w)) !! keyId = None).
  { cbn -[lookup delete]. apply lookup_delete_eq. }
  split; [exact Hgone|]. split; [unfold resultOf; now rewrite Hids|].
  rewrite Hin. intros (s' & Hs' & _). congruence.
Qed.

(** A key created under a given identifier is returned unchanged by a lookup
    made up to its expiry. *)
Lemma created_key_found (keyId : string) (w : World CryptoKey)
  (kp : CryptoKey * CryptoKey) :
  keyId <> "" ->
  generatePair (keygens w) = Some kp ->
  exists w' s,
    generateAndStoreRSAEncryptionKeys clock generatePair (Some keyId) w
    = (Returns (keyId, kp.1), w')
    /\ keys w' !! keyId = Some s
    /\ s = StoredKeyPair.mk keyId RSA_ENCRYPT (Some kp.1) (Some kp.2) None
             (clock (ticks w)) (clock (S (ticks w)) + DEFAULT_KEY_LIFESPAN_MS)
    /\ (clock (ticks w') <= StoredKeyPair.expiresAt s ->
        resultOf (getKeyPair clock keyId) w' = Returns (Some s)).
Proof.
  intros Hid Hgen.
  unfold generateAndStoreRSAEncryptionKeys, orElse, truthy,
    generateRSAEncryptionKeys, subtle_generateKeyPair.
  destruct (String.eqb_spec keyId "") as [|_]; [contradiction|].
  destruct w as [t kg rn ledger ks ss mb ml]. cbn in Hgen.
  unfold bind, ret, modify, Date_now. cbn -[lookup insert]. rewrite Hgen.
  cbn -[lookup insert]. do 2 eexists. split; [reflexivity|].
  split; [apply lookup_insert_eq|]. split; [reflexivity|].
  intros Hlive. unfold resultOf. erewrite getKeyPair_live; [reflexivity| |exact Hlive].
  apply lookup_insert_eq.
Qed.

(** *** Sessions *)

Lemma truthy_Some (v v' : string) : truthy (Some v) = Some v' -> v' = v.
Proof.
  unfold truthy. destruct (String.eqb v ""); [discriminate|congruence].
Qed.

Lemma truthy_None (v : string) : truthy (Some v) = None -> v = "".
Proof.
  unfold truthy. destruct (String.eqb_spec v ""); [auto|discriminate].
Qed.

(** C4, as the code implements it. When one of the four sub-key generations
    of [createSession] fails, the creation as a whole fails and no session
    record is stored; the sub-keys generated before the failing one remain in
    the key store, and the store is otherwise as it was. *)
Theorem createSession_fails_without_rollback (sessionId : option string)
  (w : World CryptoKey) (j : nat) :
  (j < 4)%nat ->
  (forall i, (i < j)%nat ->
     subKeyGenerated generatePair generateSecret (keygens w) i = true) ->
  subKeyGenerated generatePair generateSecret (keygens w) j = false ->
  exists e w',
    createSession clock generatePair generateSecret sessionId w = (Throws e, w')
    /\ sessions w' = sessions w
    /\ (forall k, k ∈ take j (subKeyIds (sessionIdFor clock sessionId w)) ->
          is_Some (keys w' !! k))
    /\ (forall k, k ∉ take j (subKeyIds (sessionIdFor clock sessionId w)) ->
          keys w' !! k = keys w !! k).
Proof.
  intros Hj Hbefore Hfail.
  unfold createSession, orElse, stamped, sessionIdFor,
    generateAndStoreRSAEncryptionKeys, generateAndStoreRSASignatureKeys,
    generateAndStoreAESSessionKey, generateAndStoreECDHKeyPair,
    generateRSAEncryptionKeys, generateRSASignatureKeys, generateAESKey,
    generateDHKeyPair, subtle_generateKeyPair, subtle_generateSecretKey, orElse.
  destruct w as [t kg rn ledger ks ss mb ml]. cbn [keygens ticks] in *.
  assert (H0 := Hbefore 0%nat). assert (H1 := Hbefore 1%nat).
  assert (H2 := Hbefore 2%nat). clear Hbefore.
  unfold subKeyGenerated in *. cbn [Nat.add] in *.
  destruct (truthy sessionId) as [sid|] eqn:Hsid;
    destruct j as [|[|[|[|j]]]]; try lia;
    try (specialize (H0 ltac:(lia)); apply bool_decide_eq_true in H0 as [kp0 H0]);
    try (specialize (H1 ltac:(lia)); apply bool_decide_eq_true in H1 as [kp1 H1]);
    try (specialize (H2 ltac:(lia)); apply bool_decide_eq_true in H2 as [k2 H2]);
    apply bool_decide_eq_false in Hfail;
    rewrite <- eq_None_not_Some in Hfail; cbn [Nat.add] in Hfail;
    repeat (progress (unfold bind, gets, ret, modify, Date_now;
                      rewrite ?H0, ?H1, ?H2, ?Hfail;
                      rewrite ?truthy_suffixed by discriminate;
                      cbn -[lookup insert delete String.append pretty]));
    do 2 eexists; (split; [reflexivity|]); (split; [reflexivity|]);
    cbn -[lookup insert delete String.append pretty]; split; intros k Hk.
  all: cbn -[String.append pretty] in Hk.
  all: match goal with
       | |- is_Some _ =>
           repeat (apply elem_of_cons in Hk as [->|Hk]);
           try (now apply elem_of_nil in Hk);
           repeat (rewrite lookup_insert; case_decide; [eauto|]); congruence
       | |- _ = _ =>
           repeat (apply not_elem_of_cons in Hk as [? Hk]);
           repeat (rewrite lookup_insert_ne by congruence); reflexivity
       end.
Qed.

(** When the four generations succeed, the session is stored under its
    identifier and refers to its four sub-keys, all present in the store. *)
Lemma createSession_succeeds (sessionId : option string) (w : World CryptoKey) :
  (forall i, (i < 4)%nat ->
     subKeyGenerated generatePair generateSecret (keygens w) i = true) ->
  exists session w',
    createSession clock generatePair generateSecret sessionId w
    = (Returns session, w')
    /\ sessions w' !! sessionIdFor clock sessionId w = Some session
    /\ referencedKeyIds session = subKeyIds (sessionIdFor clock sessionId w)
    /\ forall k, k ∈ subKeyIds (sessionIdFor clock sessionId w) ->
                 is_Some (keys w' !! k).
Proof.
  intros Hall.
  unfold createSession, orElse, stamped, sessionIdFor,
    generateAndStoreRSAEncryptionKeys, generateAndStoreRSASignatureKeys,
    generateAndStoreAESSessionKey, generateAndStoreECDHKeyPair,
    generateRSAEncryptionKeys, generateRSASignatureKeys, generateAESKey,
    generateDHKeyPair, subtle_generateKeyPair, subtle_generateSecretKey, orElse.
  destruct w as [t kg rn ledger ks ss mb ml]. cbn [keygens ticks] in *.
  assert (H0 := Hall 0%nat ltac:(lia)). assert (H1 := Hall 1%nat ltac:(lia)).
  assert (H2 := Hall 2%nat ltac:(lia)). assert (H3 := Hall 3%nat ltac:(lia)).
  clear Hall. unfold subKeyGenerated in *. cbn [Nat.add] in *.
  apply bool_decide_eq_true in H0 as [kp0 H0].
  apply bool_decide_eq_true in H1 as [kp1 H1].
  apply bool_decide_eq_true in H2 as [k2 H2].
  apply bool_decide_eq_true in H3 as [kp3 H3].
  destruct (truthy sessionId) as [sid|] eqn:Hsid;
    repeat (progress (unfold bind, gets, ret, modify, Date_now;
                      rewrite ?H0, ?H1, ?H2, ?H3;
                      rewrite ?truthy_suffixed by discriminate;
                      cbn -[lookup insert delete String.append pretty]));
    do 2 eexists; (split; [reflexivity|]);
    cbn -[lookup insert delete String.append pretty];
    (split; [apply lookup_insert_eq|]); (split; [reflexivity|]);
    intros k Hk; unfold subKeyIds in Hk;
    repeat (apply elem_of_cons in Hk as [->|Hk]);
    try (now apply elem_of_nil in Hk);
    repeat (rewrite lookup_insert; case_decide; [eauto|]); congruence.
Qed.

Lemma revokeIfSet_runs (o : option string) (w : World CryptoKey) :
  exists w',
    revokeIfSet o w = (Returns tt, w')
    /\ sessions w' = sessions w
    /\ (forall k, keys w !! k = None -> keys w' !! k = None)
    /\ (forall k, o = Some k -> k <> "" -> keys w' !! k = None).
Proof.
  unfold revokeIfSet, revokeKey. destruct (truthy o) as [d|] eqn:Ho.
  - exists (set_keys (delete d) w). destruct w as [t kg rn ledger ks ss mb ml].
    unfold bind, gets, ret, modify. cbn -[lookup delete].
    repeat split.
    + intros k Hk. rewrite lookup_delete. case_decide; [reflexivity|exact Hk].
    + intros k -> _. apply truthy_Some in Ho as ->. apply lookup_delete_eq.
  - exists w. repeat split; [auto|].
    intros k -> Hk. now apply truthy_None in Ho.
Qed.

(** C7. Provided no key is stored under the empty identifier,
    [terminateSession] answers false exactly when no session is stored under
    the identifier; when it answers true, the session record is gone and
    every key identifier the session referred to is absent for [getKeyPair]. *)
Theorem terminateSession_revokes (sessionId : string) (w : World CryptoKey) :
  keyIdsNonEmpty w ->
  exists b w',
    terminateSession sessionId w = (Returns b, w')
    /\ (b = false <-> sessions w !! sessionId = None)
    /\ (b = true ->
        sessions w' !! sessionId = None
        /\ forall session keyId,
             sessions w !! sessionId = Some session ->
             keyId ∈ referencedKeyIds session ->
             getKeyPair clock keyId w' = (Returns None, w')).
Proof.
  unfold keyIdsNonEmpty. intros Hinv.
  unfold terminateSession. unfold bind at 1, gets at 1.
  destruct (sessions w !! sessionId) as [session|] eqn:Hs.
  2:{ exists false, w. split; [reflexivity|]. split; [tauto|discriminate]. }
  destruct (revokeIfSet_runs (SessionContext.rsaEncryptionKeyId session) w)
    as (w1 & E1 & S1 & P1 & D1).
  destruct (revokeIfSet_runs (SessionContext.rsaSignatureKeyId session) w1)
    as (w2 & E2 & S2 & P2 & D2).
  destruct (revokeIfSet_runs (SessionContext.aesSessionKeyId session) w2)
    as (w3 & E3 & S3 & P3 & D3).
  destruct (revokeIfSet_runs (SessionContext.ecdhKeyId session) w3)
    as (w4 & E4 & S4 & P4 & D4).
  unfold bind at 1. rewrite E1. unfold bind at 1. rewrite E2.
  unfold bind at 1. rewrite E3. unfold bind at 1. rewrite E4.
  unfold bind, gets, modify, ret.
  rewrite bool_decide_eq_true_2 by (rewrite S4, S3, S2, S1, Hs; eauto).
  exists true, (set_sessions (delete sessionId) w4).
  split; [reflexivity|]. split; [split; [discriminate|congruence]|].
  intros _. split.
  { destruct w4; cbn -[lookup delete]. apply lookup_delete_eq. }
  intros session' keyId [= <-] Hin. apply getKeyPair_absent.
  assert (Hgone : keys w4 !! keyId = None).
  { destruct (decide (keyId = "")) as [->|Hne]; [auto|].
    unfold referencedKeyIds in Hin.
    destruct session as [sid [k1|] [k2|] [k3|] [k4|] created expires];
      cbn in Hin, D1, D2, D3, D4;
      repeat (apply elem_of_cons in Hin as [->|Hin]);
      try (now apply elem_of_nil in Hin); auto 6. }
  destruct w4; exact Hgone.
Qed.

(** *** No key is ever stored under the empty identifier *)

Lemma yielding_bind {A B : Type} (P : World CryptoKey -> Prop)
  (m : Js (World CryptoKey) A) (k : A -> Js (World CryptoKey) B)
  (Q : A -> Prop) (R : B -> Prop) :
  yielding P m Q -> (forall a, Q a -> yielding P (k a) R) ->
  yielding P (bind m k) R.
Proof.
  intros Hm Hk w Hw. destruct (Hm w Hw) as [Hw1 Ha].
  unfold worldAfter, resultOf, bind in *.
  destruct (m w) as [[a|e] w1]; cbn in *.
  - apply (Hk a (Ha a eq_refl) w1 Hw1).
  - split; [exact Hw1|discriminate].
Qed.

Lemma yielding_weaken {A : Type} (P : World CryptoKey -> Prop)
  (m : Js (World CryptoKey) A) (Q R : A -> Prop) :
  yielding P m Q -> (forall a, Q a -> R a) -> yielding P m R.
Proof. intros Hm HQR w Hw. destruct (Hm w Hw). split; auto. Qed.

Lemma yielding_ret {A : Type} (P : World CryptoKey -> Prop) (a : A)
  (Q : A -> Prop) : Q a -> yielding P (ret a) Q.
Proof. intros Ha w Hw. split; [exact Hw|]. now intros a' [= <-]. Qed.

Lemma Date_now_keeps_keys :
  yielding (@keyIdsNonEmpty CryptoKey) (Date_now clock) (fun _ => True).
Proof. intros [t kg rn ledger ks ss mb ml] Hw. split; [exact Hw|auto]. Qed.

Lemma orElse_stamped_nonempty (o : option string) (prefix : string) :
  prefix <> "" ->
  yielding (@keyIdsNonEmpty CryptoKey) (orElse o (stamped clock prefix))
    (fun id => id <> "").
Proof.
  intros Hp. unfold orElse. destruct (truthy o) as [v|] eqn:Ho.
  - apply yielding_ret. eapply truthy_nonempty, Ho.
  - intros [t kg rn ledger ks ss mb ml] Hw. split; [exact Hw|].
    intros a [= <-]. destruct prefix; [contradiction|discriminate].
Qed.

Lemma generating_keeps_keys {A : Type} (g : nat -> option A) :
  yielding (@keyIdsNonEmpty CryptoKey)
    (fun w => match g (keygens w) with
              | Some k => (Returns k, set_keygens S w)
              | None => (Throws "CryptoUnavailable", set_keygens S w)
              end)
    (fun _ => True).
Proof.
  intros [t kg rn ledger ks ss mb ml] Hw. unfold worldAfter. cbn.
  destruct (g kg); split; auto.
Qed.

Lemma storing_keeps_keys (id : string) (s : StoredKeyPair.t CryptoKey) :
  id <> "" ->
  yielding (@keyIdsNonEmpty CryptoKey) (modify (set_keys (insert id s)))
    (fun _ => True).
Proof.
  intros Hid [t kg rn ledger ks ss mb ml] Hw. split; [|auto].
  unfold keyIdsNonEmpty, worldAfter in *. cbn -[lookup insert] in *.
  now rewrite lookup_insert_ne.
Qed.

Lemma deleting_keeps_keys (id : string) :
  yielding (@keyIdsNonEmpty CryptoKey) (modify (set_keys (delete id)))
    (fun _ => True).
Proof.
  intros [t kg rn ledger ks ss mb ml] Hw. split; [|auto].
  unfold keyIdsNonEmpty, worldAfter in *. cbn -[lookup delete] in *.
  rewrite lookup_delete. now case_decide.
Qed.

Lemma reading_keeps_keys {A : Type} (f : World CryptoKey -> A) :
  yielding (@keyIdsNonEmpty CryptoKey) (gets f) (fun _ => True).
Proof. intros w Hw. split; [exact Hw|auto]. Qed.

Lemma set_sessions_keeps_keys
  (f : gmap string SessionContext.t -> gmap string SessionContext.t) :
  yielding (@keyIdsNonEmpty CryptoKey) (modify (set_sessions f)) (fun _ => True).
Proof. intros [t kg rn ledger ks ss mb ml] Hw. split; [exact Hw|auto]. Qed.

Ltac keeps_keys :=
  repeat first
    [ apply yielding_ret; exact I
    | apply Date_now_keeps_keys
    | apply generating_keeps_keys
    | apply reading_keeps_keys
    | apply deleting_keeps_keys
    | apply set_sessions_keeps_keys
    | apply storing_keeps_keys; assumption
    | eapply yielding_bind; [|intros ? ?] ].

Lemma generateAndStoreRSAEncryptionKeys_keeps_keys (keyId : option string) :
  preserves (@keyIdsNonEmpty CryptoKey)
    (generateAndStoreRSAEncryptionKeys clock generatePair keyId).
Proof.
  unfold preserves, generateAndStoreRSAEncryptionKeys.
  eapply yielding_bind; [apply orElse_stamped_nonempty; discriminate|].
  intros id Hid. keeps_keys.
Qed.

Lemma generateAndStoreRSASignatureKeys_keeps_keys (keyId : option string) :
  preserves (@keyIdsNonEmpty CryptoKey)
    (generateAndStoreRSASignatureKeys clock generatePair keyId).
Proof.
  unfold preserves, generateAndStoreRSASignatureKeys.
  eapply yielding_bind; [apply orElse_stamped_nonempty; discriminate|].
  intros id Hid. keeps_keys.
Qed.

Lemma generateAndStoreECDHKeyPair_keeps_keys (keyId : option string) :
  preserves (@keyIdsNonEmpty CryptoKey)
    (generateAndStoreECDHKeyPair clock generatePair keyId).
Proof.
  unfold preserves, generateAndStoreECDHKeyPair.
  eapply yielding_bind; [apply orElse_stamped_nonempty; discriminate|].
  intros id Hid. keeps_keys.
Qed.

Lemma generateAndStoreAESSessionKey_keeps_keys (keyId : option string) :
  preserves (@keyIdsNonEmpty CryptoKey)
    (generateAndStoreAESSessionKey clock generateSecret keyId).
Proof.
  unfold preserves, generateAndStoreAESSessionKey.
  eapply yielding_bind; [apply orElse_stamped_nonempty; discriminate|].
  intros id Hid. keeps_keys.
Qed.

Lemma createSession_keeps_keys (sessionId : option string) :
  preserves (@keyIdsNonEmpty CryptoKey)
    (createSession clock generatePair generateSecret sessionId).
Proof.
  unfold preserves, createSession.
  eapply yielding_bind; [apply orElse_stamped_nonempty; discriminate|].
  intros id Hid.
  eapply yielding_bind; [apply Date_now_keeps_keys|intros ? ?].
  eapply yielding_bind; [apply Date_now_keeps_keys|intros ? ?].
  eapply yielding_bind;
    [apply generateAndStoreRSAEncryptionKeys_keeps_keys|intros ? ?].
  eapply yielding_bind;
    [apply generateAndStoreRSASignatureKeys_keeps_keys|intros ? ?].
  eapply yielding_bind;
    [apply generateAndStoreAESSessionKey_keeps_keys|intros ? ?].
  eapply yielding_bind;
    [apply generateAndStoreECDHKeyPair_keeps_keys|intros ? ?].
  keeps_keys.
Qed.

Lemma getKeyPair_keeps_keys (keyId : string) :
  preserves (@keyIdsNonEmpty CryptoKey) (getKeyPair clock keyId).
Proof.
  unfold preserves, getKeyPair.
  eapply yielding_bind; [apply reading_keeps_keys|intros [s|] _].
  - eapply yielding_bind; [apply Date_now_keeps_keys|intros now _].
    destruct (StoredKeyPair.expiresAt s <? now); keeps_keys.
  - keeps_keys.
Qed.

Lemma revokeKey_keeps_keys (keyId : string) :
  preserves (@keyIdsNonEmpty CryptoKey) (revokeKey keyId).
Proof. unfold preserves, revokeKey. keeps_keys. Qed.

Lemma terminateSession_keeps_keys (sessionId : string) :
  preserves (@keyIdsNonEmpty CryptoKey) (terminateSession sessionId).
Proof.
  assert (Hrev : forall o, preserves (@keyIdsNonEmpty CryptoKey) (revokeIfSet o)).
  { intros o. unfold preserves, revokeIfSet.
    destruct (truthy o); [|keeps_keys].
    eapply yielding_bind; [apply revokeKey_keeps_keys|intros ? ?]. keeps_keys. }
  unfold preserves, terminateSession.
  eapply yielding_bind; [apply reading_keeps_keys|intros [s|] _]; [|keeps_keys].
  do 4 (eapply yielding_bind; [apply Hrev|intros ? ?]). keeps_keys.
Qed.

Lemma initialWorld_keys : keyIdsNonEmpty (@initialWorld CryptoKey).
Proof. apply lookup_empty. Qed.

End KeyStoreProperties.
(** ** Audit log: properties *)

Section AuditLogProperties.

Context {CryptoKey : Type}.
Variable clock : nat -> Z.

Lemma logCall_runs (c : LogCall.t) (w : World CryptoKey) :
  logCall clock c w
  = (Returns tt,
     set_messageLog
       (fun _ =>
          let l' := push (messageLog w) (logEntry c (clock (ticks w))) in
          if (MAX_LOG_SIZE <? length l')%nat then drop 1 l' else l')
       (set_ticks S w)).
Proof.
  unfold logCall, logMessage. destruct w as [t kg rn ledger ks ss mb ml].
  unfold bind, gets, ret, modify, Date_now, when, logEntry.
  cbn -[Nat.ltb drop].
  match goal with
  | |- context [(?a <? ?b)%nat] => destruct (a <? b)%nat
  end; reflexivity.
Qed.

Lemma logEntries_length (t : nat) (cs : list LogCall.t) :
  length (logEntries clock t cs) = length cs.
Proof. revert t. induction cs as [|c cs IH]; intros t; cbn; [|rewrite IH]; reflexivity. Qed.

(** Appending to a log within the limit and trimming keeps its last
    [MAX_LOG_SIZE] entries. *)
Lemma push_trim_keeps_last (l : list MessageLog.t) (e : MessageLog.t) :
  (length l <= MAX_LOG_SIZE)%nat ->
  (if (MAX_LOG_SIZE <? length (push l e))%nat then drop 1 (push l e) else push l e)
  = drop (length (push l e) - MAX_LOG_SIZE) (push l e).
Proof.
  intros Hl. unfold push. rewrite length_app. cbn [length].
  destruct (Nat.ltb_spec MAX_LOG_SIZE (length l + 1)) as [Hlt|Hge].
  - replace (length l + 1 - MAX_LOG_SIZE)%nat with 1%nat by lia. reflexivity.
  - replace (length l + 1 - MAX_LOG_SIZE)%nat with 0%nat by lia. reflexivity.
Qed.

Lemma logCalls_run (calls : list LogCall.t) (w : World CryptoKey) :
  (length (messageLog w) <= MAX_LOG_SIZE)%nat ->
  exists w',
    inOrder (logCall clock) calls w = (Returns tt, w')
    /\ messageLog w'
       = drop (length (messageLog w ++ logEntries clock (ticks w) calls)
               - MAX_LOG_SIZE)
           (messageLog w ++ logEntries clock (ticks w) calls).
Proof.
  revert w. induction calls as [|c calls IH]; intros w Hw.
  - exists w. split; [reflexivity|]. cbn. rewrite app_nil_r.
    replace (length (messageLog w) - MAX_LOG_SIZE)%nat with 0%nat by lia.
    reflexivity.
  - pose proof (logCall_runs c w) as Hc.
    pose proof (push_trim_keeps_last (messageLog w)
                  (logEntry c (clock (ticks w))) Hw) as Htrim.
    cbv zeta in Hc. rewrite Htrim in Hc.
    set (l1 := drop _ _) in Hc.
    set (w1 := set_messageLog _ _) in Hc.
    assert (Hl1 : messageLog w1 = l1) by (destruct w; reflexivity).
    assert (Ht1 : ticks w1 = S (ticks w)) by (destruct w; reflexivity).
    assert (Hlen1 : (length l1 <= MAX_LOG_SIZE)%nat).
    { subst l1. rewrite length_drop. lia. }
    destruct (IH w1) as (w' & Hrun & Hlog); [now rewrite Hl1|].
    exists w'. split.
    + cbn. unfold bind. rewrite Hc. exact Hrun.
    + rewrite Hlog, Hl1, Ht1. cbn [logEntries]. subst l1. unfold push.
      set (e := logEntry c (clock (ticks w))).
      set (es := logEntries clock (S (ticks w)) calls).
      set (l := messageLog w) in *.
      replace (l ++ e :: es)%list with ((l ++ [e]) ++ es)%list
        by (rewrite <- app_assoc; reflexivity).
      set (d := (length (l ++ [e]) - MAX_LOG_SIZE)%nat).
      assert (Hd : (d <= length (l ++ [e]))%nat) by lia.
      rewrite <- (drop_app_le (l ++ [e]) es d Hd).
      rewrite drop_drop. f_equal.
      rewrite length_drop, !length_app. cbn [length].
      subst d. rewrite length_app. cbn [length]. lia.
Qed.

Lemma logEntries_ids (t : nat) (cs : list LogCall.t) (e : MessageLog.t) :
  e ∈ logEntries clock t cs -> MessageLog.id e ∈ LogCall.messageId <$> cs.
Proof.
  revert t. induction cs as [|c cs IH]; intros t; cbn.
  - intros H. now apply elem_of_nil in H.
  - intros [->|H]%elem_of_cons; [left|right; eapply IH, H].
Qed.

(** C9. After any sequence of [logMessage] calls on a log within the limit,
    the log holds at most 1000 entries: the last ones written, oldest first.
    After 1001 calls on the empty log, the log is made of the 2nd to the
    1001st entry: the 1001st is present, and the first is absent (its message
    id being that of no later call). *)
Theorem messageLog_bounded_fifo (calls : list LogCall.t) (w : World CryptoKey) :
  (length (messageLog w) <= 1000)%nat ->
  exists w',
    inOrder (logCall clock) calls w = (Returns tt, w')
    /\ (length (messageLog w') <= 1000)%nat
    /\ (messageLog w = [] -> length calls = 1001%nat ->
        exists first rest last,
          logEntries clock (ticks w) calls = (first :: rest ++ [last])%list
          /\ messageLog w' = (rest ++ [last])%list
          /\ last ∈ messageLog w'
          /\ (NoDup (LogCall.messageId <$> calls) -> first ∉ messageLog w')).
Proof.
  intros Hw. change 1000%nat with MAX_LOG_SIZE in *.
  destruct (logCalls_run calls w Hw) as (w' & Hrun & Hlog).
  exists w'. split; [exact Hrun|]. split.
  - rewrite Hlog, length_drop. lia.
  - intros Hempty Hlen. rewrite Hempty in Hlog. cbn [app] in Hlog.
    pose proof (logEntries_length (ticks w) calls) as Hn.
    rewrite Hlen in Hn. rewrite Hn in Hlog.
    replace (1001 - MAX_LOG_SIZE)%nat with 1%nat in Hlog by reflexivity.
    destruct calls as [|c calls]; [discriminate|]. cbn [logEntries] in *.
    destruct (exists_last (l := logEntries clock (S (ticks w)) calls))
      as (rest & last & Hrest).
    { intros Hnil. rewrite Hnil in Hn. discriminate. }
    exists (logEntry c (clock (ticks w))), rest, last.
    cbn in Hlog. rewrite Hrest in *.
    split; [reflexivity|]. split; [exact Hlog|]. rewrite Hlog. split.
    + apply elem_of_app. right. apply list_elem_of_singleton. reflexivity.
    + rewrite fmap_cons. intros [Hfresh _]%NoDup_cons Hin. apply Hfresh.
      rewrite <- Hrest in Hin. apply logEntries_ids in Hin. exact Hin.
Qed.

End AuditLogProperties.
(** ** Closed instances *)

(** C1 on a tampered, replayed message with a failed signature, one
    millisecond old. *)
Lemma report_tamper_replay_mitm_witness :
  sampleSha256 "hello" <> "bogus"
  /\ exists r,
       resultOf (generateVerificationReport sampleClock sampleSha256 "m-1"
                   "hello" "bogus" "n-1" 1700000000001 (Some false))
         usedOnceWorld
       = Returns r
       /\ VerificationReport.riskScore r = 85
       /\ VerificationReport.overallStatus r = COMPROMISED
       /\ AttackDetection.attackType <$> VerificationReport.detectedAttacks r
          = [Some tamper; Some replay; Some mitm]
       /\ Forall (fun d => AttackDetection.detected d = true)
            (VerificationReport.detectedAttacks r).
Proof.
  split; [discriminate|].
  apply (report_tamper_replay_mitm sampleClock sampleSha256 "m-1" "hello"
           "bogus" "n-1" 1700000000001 usedOnceWorld).
  - discriminate.
  - reflexivity.
  - unfold withinFreshness, MESSAGE_MAX_AGE_MS. vm_compute. split; congruence.
  - unfold withinSkew, MAX_CLOCK_SKEW_MS. vm_compute. congruence.
Defined.

(** C2 on an untouched message with a fresh nonce and no signature signal. *)
Lemma report_clean_message_witness :
  exists r,
    resultOf (generateVerificationReport sampleClock sampleSha256 "m-2"
                "hello" "sha256(hello)" "n-2" 1700000000001 None)
      usedOnceWorld
    = Returns r
    /\ VerificationReport.riskScore r = 0
    /\ VerificationReport.overallStatus r = SAFE
    /\ VerificationReport.detectedAttacks r = [].
Proof.
  apply (report_clean_message sampleClock sampleSha256 "m-2" "hello"
           "sha256(hello)" "n-2" 1700000000001 None usedOnceWorld).
  - reflexivity.
  - reflexivity.
  - unfold withinFreshness, MESSAGE_MAX_AGE_MS. vm_compute. split; congruence.
  - unfold withinSkew, MAX_CLOCK_SKEW_MS. vm_compute. congruence.
  - discriminate.
Defined.

(** C8 on the clean and the tampered sample messages: the failing checks of
    the first are among those of the second. *)
Lemma riskScore_bounded_monotone_witness :
  exists rClean rTampered,
    resultOf (generateVerificationReport sampleClock sampleSha256 "m-2"
                "hello" "sha256(hello)" "n-2" 1700000000001 None)
      usedOnceWorld
    = Returns rClean
    /\ resultOf (generateVerificationReport sampleClock sampleSha256 "m-1"
                   "hello" "bogus" "n-1" 1700000000001 (Some false))
         usedOnceWorld
       = Returns rTampered
    /\ 0 <= VerificationReport.riskScore rClean <= 100
    /\ VerificationReport.riskScore rClean
       <= VerificationReport.riskScore rTampered.
Proof.
  destruct (riskScore_bounded_monotone sampleClock sampleSha256 "m-2" "hello"
              "sha256(hello)" "n-2" 1700000000001 None usedOnceWorld)
    as (rClean & Hclean & Hbounds & Hmono).
  exists rClean. eexists. split; [exact Hclean|]. split; [reflexivity|].
  split; [exact Hbounds|].
  apply (Hmono "m-1" "hello" "bogus" "n-1" 1700000000001 (Some false)
           usedOnceWorld); [reflexivity|].
  vm_compute. repeat split; discriminate.
Defined.

(** C5 on a run that marks the tokens ["a"] and ["b"]. *)
Lemma isReplay_iff_marked_witness :
  exists (w : World nat) b,
    inOrder (ledgerCall sampleClock) sampleLedgerCalls initialWorld
    = (Returns tt, w)
    /\ isReplay "a" w = (Returns b, w)
    /\ (b = true <-> CallMarkNonceUsed "a" ∈ sampleLedgerCalls)
    /\ forall (t' : string) (w' : World nat), worldAfter (isReplay t') w' = w'.
Proof.
  apply (isReplay_iff_marked sampleClock sampleLedgerCalls "a" initialWorld).
  reflexivity.
Defined.

(** C4, as implemented, when the second generation request is rejected. *)
Lemma createSession_fails_without_rollback_witness :
  exists e (w' : World nat),
    createSession sampleClock (rejectingAt 1 samplePair) sampleSecret
      (Some "s1") initialWorld
    = (Throws e, w')
    /\ sessions w' = sessions (@initialWorld nat)
    /\ (forall k,
          k ∈ take 1 (subKeyIds
                        (sessionIdFor sampleClock (Some "s1") (@initialWorld nat))) ->
          is_Some (keys w' !! k))
    /\ (forall k,
          k ∉ take 1 (subKeyIds
                        (sessionIdFor sampleClock (Some "s1") (@initialWorld nat))) ->
          keys w' !! k = keys (@initialWorld nat) !! k).
Proof.
  apply (createSession_fails_without_rollback sampleClock
           (rejectingAt 1 samplePair) sampleSecret (Some "s1") initialWorld 1).
  - lia.
  - intros i Hi. assert (i = 0%nat) as -> by lia. reflexivity.
  - reflexivity.
Defined.

(** C7 on the world holding the session ["s1"]. *)
Lemma terminateSession_revokes_witness :
  keyIdsNonEmpty sampleSessionWorld
  /\ exists b w',
       terminateSession "s1" sampleSessionWorld = (Returns b, w')
       /\ (b = false <-> sessions sampleSessionWorld !! "s1" = None)
       /\ (b = true ->
           sessions w' !! "s1" = None
           /\ forall session keyId,
                sessions sampleSessionWorld !! "s1" = Some session ->
                keyId ∈ referencedKeyIds session ->
                getKeyPair sampleClock keyId w' = (Returns None, w')).
Proof.
  split; [reflexivity|].
  apply (terminateSession_revokes sampleClock "s1" sampleSessionWorld).
  reflexivity.
Defined.

(** C9 on 1001 calls with distinct message ids, from the empty log. *)
Lemma messageLog_bounded_fifo_witness :
  exists w' : World nat,
    inOrder (logCall sampleClock) sampleLogCalls initialWorld = (Returns tt, w')
    /\ (length (messageLog w') <= 1000)%nat
    /\ exists first rest last,
         logEntries sampleClock 0 sampleLogCalls = (first :: rest ++ [last])%list
         /\ messageLog w' = (rest ++ [last])%list
         /\ last ∈ messageLog w'
         /\ first ∉ messageLog w'.
Proof.
  destruct (messageLog_bounded_fifo sampleClock sampleLogCalls
              (@initialWorld nat)) as (w' & Hrun & Hlen & Hfifo).
  - cbn. lia.
  - exists w'. split; [exact Hrun|]. split; [exact Hlen|].
    destruct Hfifo as (first & rest & last & Hall & Hlog & Hlast & Hfirst).
    + reflexivity.
    + unfold sampleLogCalls. rewrite length_fmap, length_seq. reflexivity.
    + exists first, rest, last. repeat split; [exact Hall|exact Hlog|exact Hlast|].
      apply Hfirst. unfold sampleLogCalls. rewrite <- list_fmap_compose.
      apply NoDup_fmap_2; [|apply NoDup_seq].
      intros i j Hij. cbn in Hij.
      apply (inj (String.app "msg-")), (inj pretty) in Hij. exact Hij.
Defined.

(** C6, as implemented: a replayed presentation to the verify handler and a
    first presentation to the relay handler. *)
Lemma handlers_mark_unless_replay_detected_witness :
  (exists resp,
     verify_POST sampleClock (Some sampleVerifyBody) usedOnceWorld
     = (Returns resp, usedOnceWorld)
     /\ Response.status resp = 200
     /\ VerificationResult.replaySafe (Response.body resp) = false)
  /\ (exists resp w',
        relay_POST sampleClock sampleTamper sampleHexPrefix
          (Some sampleRelayRequest) (@initialWorld nat)
        = (Returns resp, w')
        /\ Response.status resp = 200
        /\ useCount "n-1" w' = 1
        /\ usedNonces w' !! "n-2" = None).
Proof.
  destruct (handlers_mark_unless_replay_detected (CryptoKey := nat)
              sampleClock sampleTamper sampleHexPrefix) as [Hverify Hrelay].
  split.
  - apply (Hverify sampleVerifyBody usedOnceWorld).
  - destruct (Hrelay sampleRelayRequest initialWorld)
      as (resp & w' & Hrun & Hstatus & Hcount & Hother).
    exists resp, w'. split; [exact Hrun|]. split; [exact Hstatus|].
    split; [exact Hcount|]. rewrite (Hother "n-2"); [reflexivity|discriminate].
Defined.

(** C6, refuted as stated: the nonce ["n-1"] was consumed once; presenting it
    again, with replay checking enabled, is detected as a replay by both
    handlers, and neither marks it: its use count stays 1, where
    [markNonceUsed] would have raised it to 2. *)
Lemma replayed_presentation_is_not_marked :
  useCount "n-1" usedOnceWorld = 1
  /\ useCount "n-1" (worldAfter (markNonceUsed sampleClock "n-1") usedOnceWorld) = 2
  /\ (exists resp,
        resultOf (verify_POST sampleClock (Some sampleVerifyBody)) usedOnceWorld
        = Returns resp
        /\ VerificationResult.replaySafe (Response.body resp) = false)
  /\ useCount "n-1"
       (worldAfter (verify_POST sampleClock (Some sampleVerifyBody)) usedOnceWorld)
     = 1
  /\ (exists resp,
        resultOf (relay_POST sampleClock sampleTamper sampleHexPrefix
                    (Some sampleRelayRequest)) usedOnceWorld
        = Returns resp
        /\ Response.status resp = 409)
  /\ useCount "n-1"
       (worldAfter (relay_POST sampleClock sampleTamper sampleHexPrefix
                      (Some sampleRelayRequest)) usedOnceWorld)
     = 1.
Proof.
  repeat split; try reflexivity; eexists; split; reflexivity.
Qed.

(** C4, refuted as stated: when the second sub-key generation is rejected,
    [createSession] fails and stores no session, yet the first sub-key, absent
    before the call, is left in the key store. *)
Lemma createSession_leaves_orphan_subkey :
  let outcome :=
    createSession sampleClock (rejectingAt 1 samplePair) sampleSecret
      (Some "s1") initialWorld in
  outcome.1 = Throws "CryptoUnavailable"
  /\ sessions outcome.2 !! "s1" = None
  /\ keys (@initialWorld nat) !! "s1-rsa-enc" = None
  /\ keys outcome.2 !! "s1-rsa-enc"
     = Some (StoredKeyPair.mk "s1-rsa-enc" RSA_ENCRYPT (Some 0%nat) (Some 1%nat)
               None 1700000000002 (1700000000003 + 3600000)).
Proof. vm_compute. repeat split. Qed.

(** C3, at the instant of expiry. The key ["k1"] expires at 3601000 and the
    clock reads 3601000: [getKeyPair] returns the record and does not evict
    it, although [now < expiresAt] does not hold, while [getActiveKeyIds] at
    the same reading does not list it. *)
Theorem getKeyPair_returns_key_at_expiry_instant :
  exists s,
    keys keyAtExpiryWorld !! "k1" = Some s
    /\ StoredKeyPair.expiresAt s = 3601000
    /\ boundaryClock (ticks keyAtExpiryWorld) = 3601000
    /\ resultOf (getKeyPair boundaryClock "k1") keyAtExpiryWorld
       = Returns (Some s)
    /\ keys (worldAfter (getKeyPair boundaryClock "k1") keyAtExpiryWorld) !! "k1"
       = Some s
    /\ resultOf (getActiveKeyIds boundaryClock) keyAtExpiryWorld = Returns [].
Proof. eexists. vm_compute. repeat split. Qed.
